(** * The default plugin of the bundler (src/utils/defaultPlugin.ts)

    A shallow embedding of the fallback plugin: the two per-format tables of
    run-time URL expressions with the hooks [resolveAssetUrl] and
    [resolveImportMeta] that read them, and the resolver
    ([findFile], [addJsExtensionIfNecessary], [createResolveId]) over the
    primitives it imports from [./fs] and [./path]. *)

From stdpp Require Import base decidable option list strings gmap.
From Stdlib Require Import ZArith Lia Ascii.

(** ** JavaScript values and completions *)

(** The values the plugin's functions pass around: strings, [null] and
    [undefined]. *)
Inductive value : Type :=
| Str (s : string)
| Null
| Undefined.

Global Instance value_eq_dec : EqDecision value.
Proof. solve_decision. Defined.

(** [if (v)]: the empty string, [null] and [undefined] are falsy. *)
Definition truthy (v : value) : bool :=
  match v with
  | Str s => negb (String.eqb s "")
  | Null | Undefined => false
  end.

(** [a === b] on the values above. *)
Definition strictEq (a b : value) : bool := bool_decide (a = b).

Inductive JsError : Type :=
| TypeError (msg : string)     (* raised by the engine: calling what is no function *)
| RollupError (code : string)  (* raised by [error] of ./error *)
| FsError (code : string).     (* raised by a primitive of ./fs (ENOENT, EACCES, ELOOP, ...) *)

(** How a call ends: it returns a value or it throws. *)
Inductive completion (A : Type) : Type :=
| Normal (a : A)
| Throw (e : JsError).
Global Arguments Normal {A} a.
Global Arguments Throw {A} e.

(** ** Object literals read as tables

    [table[key]] on an object literal finds the literal's own entry, else a
    member inherited from [Object.prototype], else [undefined]. *)
Inductive property (A : Type) : Type :=
| Own (a : A)
| Inherited (member : string)
| Absent.
Global Arguments Own {A} a.
Global Arguments Inherited {A} member.
Global Arguments Absent {A}.

Definition objectPrototypeMembers : list string :=
  [ "constructor"; "hasOwnProperty"; "isPrototypeOf"; "propertyIsEnumerable";
    "toLocaleString"; "toString"; "valueOf"; "__proto__";
    "__defineGetter__"; "__defineSetter__"; "__lookupGetter__"; "__lookupSetter__" ].

Definition getProperty {A : Type} (table : gmap string A) (key : string) : property A :=
  match table !! key with
  | Some a => Own a
  | None => if bool_decide (key ∈ objectPrototypeMembers) then Inherited key else Absent
  end.

(** What a member inherited from [Object.prototype] may answer besides a
    string or [undefined]: a boolean, the wrapper object [Object(s)] of a
    string, the table itself, a native function. *)
Inductive anyValue : Type :=
| Plain (v : value)
| Boolean (b : bool)
| StringWrapper (s : string)
| TheTable
| NativeFunction (name : string).

(** [if (x)] on these: an object is truthy, whatever it wraps. *)
Definition truthyAny (x : anyValue) : bool :=
  match x with
  | Plain v => truthy v
  | Boolean b => b
  | StringWrapper _ | TheTable | NativeFunction _ => true
  end.

(** [`${x}`]: the text of a native function is the engine's to choose, so
    there is none here. *)
Definition toText (x : anyValue) : option string :=
  match x with
  | Plain (Str s) => Some s
  | Plain Null => Some "null"
  | Plain Undefined => Some "undefined"
  | Boolean b => Some (if b then "true" else "false")
  | StringWrapper s => Some s
  | TheTable => Some "[object Object]"
  | NativeFunction _ => None
  end.

Definition toPlain (x : anyValue) : option value :=
  match x with
  | Plain v => Some v
  | _ => None
  end.

(** [__lookupGetter__(arg)] and [__lookupSetter__(arg)]: an own entry of the
    table is a data property, and of the members of [Object.prototype] only
    [__proto__] is an accessor. *)
Definition lookupAccessor (own : bool) (arg accessor : string) : anyValue :=
  if negb own && String.eqb arg "__proto__" then NativeFunction accessor
  else Plain Undefined.

(** [table[member](arg)] for a member inherited from [Object.prototype], on
    an object literal and a string [arg], with the table as [this]; [own]
    says whether [arg] is a key of the table. [__proto__] reads as the
    prototype object, which is no function; [__defineGetter__] and
    [__defineSetter__] are given no accessor function. *)
Definition callInherited (own : bool) (member arg : string) : completion anyValue :=
  if String.eqb member "constructor" then Normal (StringWrapper arg)
  else if String.eqb member "hasOwnProperty" then Normal (Boolean own)
  else if String.eqb member "propertyIsEnumerable" then Normal (Boolean own)
  else if String.eqb member "isPrototypeOf" then Normal (Boolean false)
  else if String.eqb member "toString" then Normal (Plain (Str "[object Object]"))
  else if String.eqb member "toLocaleString" then Normal (Plain (Str "[object Object]"))
  else if String.eqb member "valueOf" then Normal TheTable
  else if String.eqb member "__lookupGetter__"
  then Normal (lookupAccessor own arg "get __proto__")
  else if String.eqb member "__lookupSetter__"
  then Normal (lookupAccessor own arg "set __proto__")
  else if String.eqb member "__defineGetter__"
  then Throw (TypeError "__defineGetter__: the getter is not a function")
  else if String.eqb member "__defineSetter__"
  then Throw (TypeError "__defineSetter__: the setter is not a function")
  else Throw (TypeError "table[format] is not a function").

(** The inherited members whose call raises. *)
Definition throwingMembers : list string :=
  ["__proto__"; "__defineGetter__"; "__defineSetter__"].

(** ** The mechanism tables (lines 80-121) *)

(** [(path, URL = 'URL') => `new ${URL}(${path}).href`]; [None] stands for an
    omitted second argument. *)
Definition getResolveUrl (path : string) (URL : option string) : string :=
  let URL := default "URL" URL in
  "new " +:+ URL +:+ "(" +:+ path +:+ ").href".

Definition getUrlFromDocument (chunkId : string) : string :=
  "(document.currentScript && document.currentScript.src || new URL('" +:+ chunkId
    +:+ "', document.baseURI).href)".

Definition importMetaUrlMechanisms : gmap string (string → string) :=
  list_to_map
    [ ("amd", λ _, getResolveUrl "module.uri, document.baseURI" None);
      ("cjs", λ chunkId,
         "(typeof document === 'undefined' ? "
           +:+ getResolveUrl "'file:' + __filename" (Some "(require('u' + 'rl').URL)")
           +:+ " : " +:+ getUrlFromDocument chunkId +:+ ")");
      ("iife", λ chunkId, getUrlFromDocument chunkId);
      ("system", λ _, "module.meta.url");
      ("umd", λ chunkId,
         "(typeof document === 'undefined' ? "
           +:+ getResolveUrl "'file:' + __filename" (Some "(require('u' + 'rl').URL)")
           +:+ " : " +:+ getUrlFromDocument chunkId +:+ ")") ].

Definition getRelativeUrlFromDocument (relativePath : string) : string :=
  getResolveUrl
    ("(document.currentScript && document.currentScript.src || document.baseURI) + '/../"
       +:+ relativePath +:+ "'")
    None.

Definition relativeUrlMechanisms : gmap string (string → string) :=
  list_to_map
    [ ("amd", λ relativePath,
         getResolveUrl ("module.uri + '/../" +:+ relativePath +:+ "', document.baseURI") None);
      ("cjs", λ relativePath,
         "(typeof document === 'undefined' ? "
           +:+ getResolveUrl ("'file:' + __dirname + '/" +:+ relativePath +:+ "'")
                 (Some "(require('u' + 'rl').URL)")
           +:+ " : " +:+ getRelativeUrlFromDocument relativePath +:+ ")");
      ("es", λ relativePath,
         getResolveUrl ("'" +:+ relativePath +:+ "', import.meta.url") None);
      ("iife", λ relativePath, getRelativeUrlFromDocument relativePath);
      ("system", λ relativePath,
         getResolveUrl ("'" +:+ relativePath +:+ "', module.meta.url") None);
      ("umd", λ relativePath,
         "(typeof document === 'undefined' ? "
           +:+ getResolveUrl ("'file:' + __dirname + '/" +:+ relativePath +:+ "'")
                 (Some "(require('u' + 'rl').URL)")
           +:+ " : " +:+ getRelativeUrlFromDocument relativePath +:+ ")") ].

(** ** The two code-generation hooks (lines 17-25)

    Where the format names a member inherited from [Object.prototype], the
    hook calls that member. Its result is [None] where what the member
    answers is returned as it is and is no string or [undefined] (a boolean,
    an object), or has no text of its own (a native function). *)

(** [return relativeUrlMechanisms[format](relativeAssetPath)]: calling
    [undefined] raises a TypeError. *)
Definition resolveAssetUrl (relativeAssetPath format : string)
  : option (completion value) :=
  match getProperty relativeUrlMechanisms format with
  | Own mechanism => Some (Normal (Str (mechanism relativeAssetPath)))
  | Absent => Some (Throw (TypeError "relativeUrlMechanisms[format] is not a function"))
  | Inherited member =>
      match callInherited (bool_decide (is_Some (relativeUrlMechanisms !! relativeAssetPath)))
              member relativeAssetPath with
      | Normal answer => Normal <$> toPlain answer
      | Throw e => Some (Throw e)
      end
  end.

(** Lines 22-24 for a mechanism that an inherited member answered. *)
Definition importMetaOf (prop : value) (mechanism : anyValue) : option (completion value) :=
  if truthyAny mechanism then
    if strictEq prop Null
    then (λ text, Normal (Str ("({ url: " +:+ text +:+ " })"))) <$> toText mechanism
    else if strictEq prop (Str "url") then Normal <$> toPlain mechanism
    else Some (Normal (Str "undefined"))
  else Some (Normal Undefined).

(** [prop] is a string or [null]; the function falls off its end, returning
    [undefined], when [mechanism] is falsy. *)
Definition resolveImportMeta (prop : value) (chunkId format : string)
  : option (completion value) :=
  match getProperty importMetaUrlMechanisms format with
  | Absent => Some (Normal Undefined)           (* undefined && ... *)
  | Own entry =>
      let mechanism := Str (entry chunkId) in
      if truthy mechanism then
        Some (Normal
                (if strictEq prop Null then Str ("({ url: " +:+ entry chunkId +:+ " })")
                 else if strictEq prop (Str "url") then mechanism
                 else Str "undefined"))
      else Some (Normal Undefined)
  | Inherited member =>
      match callInherited (bool_decide (is_Some (importMetaUrlMechanisms !! chunkId)))
              member chunkId with
      | Normal mechanism => importMetaOf prop mechanism
      | Throw e => Some (Throw e)
      end
  end.

(** The formats of the bundler. *)
Definition outputFormats : list string := ["amd"; "cjs"; "es"; "iife"; "system"; "umd"].

(** ** The host: [process], ./fs and ./path

    The resolver reads the global [process] and imports its primitives from
    [./fs] (Node's synchronous file system calls) and [./path]; they are the
    interfaces below. A file system call returns or throws; the answers are
    those of one snapshot of the disk. *)

Record Stats : Type := {
  isSymbolicLink : bool;
  isFile : bool
}.

Class FsModule : Type := {
  lstatSync : string → completion Stats;
  realpathSync : string → completion string;
  readdirSync : string → completion (list string)
}.

(** [resolve] takes any number of segments; [resolve []] is the working
    directory. *)
Class PathModule : Type := {
  basename : string → string;
  dirname : string → string;
  isAbsolute : string → bool;
  resolve : list string → string
}.

(** [typeof process !== 'undefined'] *)
Class Host : Type := {
  processDefined : bool
}.

(** [InputOptions], of which the resolver reads the flag [preserveSymlinks]
    (its truthiness). *)
Record InputOptions : Type := {
  preserveSymlinks : bool
}.

(** ** Probing computations

    A call on the file system is recorded, so that what a resolution touched
    can be read off its result. A computation yields its completion and the
    probes made, in order; it yields [None] when the recursion of [findFile]
    goes deeper than the fuel given. *)
Inductive Probe : Type :=
| Lstat (path : string)
| Realpath (path : string)
| Readdir (dir : string).

Definition Probing (A : Type) : Type := option (completion A * list Probe).

Definition ret {A : Type} (a : A) : Probing A := Some (Normal a, []).

Definition raise {A : Type} (e : JsError) : Probing A := Some (Throw e, []).

Definition after {A : Type} (log : list Probe) (m : Probing A) : Probing A :=
  match m with
  | Some (r, log') => Some (r, log ++ log')
  | None => None
  end.

Definition bind {A B : Type} (m : Probing A) (k : A → Probing B) : Probing B :=
  match m with
  | Some (Normal a, log) => after log (k a)
  | Some (Throw e, log) => Some (Throw e, log)
  | None => None
  end.

(** [try { body } catch (err) { handler }] *)
Definition tryCatch {A : Type} (body : Probing A) (handler : JsError → Probing A)
  : Probing A :=
  match body with
  | Some (Throw e, log) => after log (handler e)
  | _ => body
  end.

(** One call of a primitive of ./fs. *)
Definition probe {A : Type} (p : Probe) (answer : completion A) : Probing A :=
  Some (answer, [p]).

Notation "'let*' x ':=' m 'in' k" := (bind m (λ x, k))
  (at level 10, x name, m at level 100, k at level 200, only parsing).

(** [files.indexOf(name)]: the first index of [name], or -1. *)
Fixpoint indexOfFrom (files : list string) (name : string) (i : Z) : Z :=
  match files with
  | [] => (-1)%Z
  | f :: rest => if String.eqb f name then i else indexOfFrom rest name (i + 1)%Z
  end.

Definition indexOf (files : list string) (name : string) : Z := indexOfFrom files name 0.

(** [importee[0]] *)
Definition charAt0 (s : string) : value :=
  match s with
  | EmptyString => Undefined
  | String c _ => Str (String c EmptyString)
  end.

(** Modelled from the spec: [error] of ./error is not among the sources; the
    spec has the environment error reported at once and fatal, so a call of
    [error] throws, here with the code of the object it is given. *)
Definition error {A : Type} (code : string) : Probing A := raise (RollupError code).

Section Resolver.
Context {fs : FsModule} {paths : PathModule} {host : Host}.

(** Lines 29-44. The whole body stands in [try]; the handler suppresses. *)
Fixpoint findFile (fuel : nat) (file : string) (preserveSymlinks : bool)
  : Probing value :=
  match fuel with
  | O => None
  | S fuel =>
      tryCatch
        (let* stats := probe (Lstat file) (lstatSync file) in
         if negb preserveSymlinks && isSymbolicLink stats then
           let* target := probe (Realpath file) (realpathSync file) in
           findFile fuel target preserveSymlinks
         else if (preserveSymlinks && isSymbolicLink stats) || isFile stats then
           (* check case *)
           let name := basename file in
           let* files := probe (Readdir (dirname file)) (readdirSync (dirname file)) in
           if negb (indexOf files name =? -1)%Z then ret (Str file) else ret Undefined
         else ret Undefined)
        (λ err, (* suppress *) ret Undefined)
  end.

(** Lines 46-53. *)
Definition addJsExtensionIfNecessary (fuel : nat) (file : string)
    (preserveSymlinks : bool) : Probing value :=
  let* found := findFile fuel file preserveSymlinks in
  if truthy found then ret found else
  let* found := findFile fuel (file +:+ ".mjs") preserveSymlinks in
  if truthy found then ret found else
  let* found := findFile fuel (file +:+ ".js") preserveSymlinks in
  ret found.

(** [resolve(importer ? dirname(importer) : resolve(), importee)], the path
    line 74 composes. [importer] is a string or [undefined]. *)
Definition composedPath (importee : string) (importer : value) : string :=
  resolve [ match importer with
            | Str s => if truthy importer then dirname s else resolve []
            | _ => resolve []
            end;
            importee ].

(** Lines 55-78: the function [createResolveId(options)] returns, named
    [resolveId] in the plugin. *)
Definition createResolveId (options : InputOptions) (fuel : nat)
    (importee : string) (importer : value) : Probing value :=
  let* _ := (if negb processDefined then error "MISSING_PROCESS" else ret tt) in
  (* external modules (non-entry modules that start with neither '.' or '/')
     are skipped at this stage. *)
  if negb (strictEq importer Undefined) && negb (isAbsolute importee)
     && negb (strictEq (charAt0 importee) (Str "."))
  then ret Null
  else
    addJsExtensionIfNecessary fuel (composedPath importee importer)
      (preserveSymlinks options).

End Resolver.

(** ** The dynamic-import hook (lines 13-16)

    The specifier of a dynamic import is a string literal or the syntax node
    of any other expression. The hook is called on the plugin context [this],
    of which it uses the orchestrator's externality test and the
    orchestrator's resolver; what the resolver's promise settles to is taken
    for its result. *)
Inductive DynamicSpecifier : Type :=
| Literal (s : string)
| Node (type : string).

Class PluginContext : Type := {
  isExternal : string → value → bool → bool;
  thisResolveId : string → value → Probing value
}.

(** [if (typeof specifier === 'string' && !this.isExternal(specifier,
    parentId, false)) return this.resolveId(specifier, parentId)]; the
    function falls off its end otherwise. *)
Definition resolveDynamicImport {context : PluginContext}
    (specifier : DynamicSpecifier) (parentId : value) : Probing value :=
  match specifier with
  | Literal s =>
      if negb (isExternal s parentId false) then thisResolveId s parentId
      else ret Undefined
  | Node _ => ret Undefined
  end.

(** ** Disks and hosts to run the resolver on

    A disk given by three tables: the status of each path, the real path of
    each link, the listing of each directory. A path with no row answers
    ENOENT. [fold] is applied to a path before it is looked up: the identity
    on a case-sensitive disk, [lowercase] on a case-insensitive one (whose
    rows are keyed in lower case, while its listings keep the names as
    stored). *)

Fixpoint assoc {A : Type} (key : string) (rows : list (string * A)) : option A :=
  match rows with
  | [] => None
  | (k, a) :: rows => if String.eqb k key then Some a else assoc key rows
  end.

Definition answer {A : Type} (row : option (completion A)) : completion A :=
  match row with
  | Some r => r
  | None => Throw (FsError "ENOENT")
  end.

Definition tableFs (fold : string → string)
    (stats : list (string * Stats))
    (links : list (string * completion string))
    (dirs : list (string * completion (list string))) : FsModule :=
  {| lstatSync path := answer (Normal <$> assoc (fold path) stats);
     realpathSync path := answer (assoc (fold path) links);
     readdirSync dir := answer (assoc (fold dir) dirs) |}.

Definition lowercaseAscii (c : ascii) : ascii :=
  let n := nat_of_ascii c in
  if (65 <=? n)%nat && (n <=? 90)%nat then ascii_of_nat (n + 32) else c.

Fixpoint lowercase (s : string) : string :=
  match s with
  | EmptyString => EmptyString
  | String c rest => String (lowercaseAscii c) (lowercase rest)
  end.

Definition regularFile : Stats := {| isSymbolicLink := false; isFile := true |}.
Definition symbolicLink : Stats := {| isSymbolicLink := true; isFile := false |}.
Definition directory : Stats := {| isSymbolicLink := false; isFile := false |}.

(** A case-sensitive project: [link.js] points to [/proj/lib/real.js],
    [chain.js] points to [link.js], [loop.js] points to itself, and the
    directory [/proj/vault] may be entered but not listed. *)
Definition projectDisk : FsModule :=
  tableFs id
    [ ("/proj/src/main.js", regularFile);
      ("/proj/src/util.js", regularFile);
      ("/proj/src/data.mjs", regularFile);
      ("/proj/src/lib", directory);
      ("/proj/src/link.js", symbolicLink);
      ("/proj/src/chain.js", symbolicLink);
      ("/proj/src/loop.js", symbolicLink);
      ("/proj/lib/real.js", regularFile);
      ("/proj/vault/key.js", regularFile) ]
    [ ("/proj/src/link.js", Normal "/proj/lib/real.js");
      ("/proj/src/chain.js", Normal "/proj/lib/real.js");
      ("/proj/src/loop.js", Throw (FsError "ELOOP")) ]
    [ ("/proj/src",
       Normal ["main.js"; "util.js"; "data.mjs"; "lib"; "link.js"; "chain.js"; "loop.js"]);
      ("/proj/lib", Normal ["real.js"]);
      ("/proj/vault", Throw (FsError "EACCES")) ].

(** A case-insensitive disk holding [foo.js], [real.js] and the link
    [link.js] to [real.js] in [/proj/src]. *)
Definition caseInsensitiveDisk : FsModule :=
  tableFs lowercase
    [ ("/proj/src/main.js", regularFile);
      ("/proj/src/foo.js", regularFile);
      ("/proj/src/real.js", regularFile);
      ("/proj/src/link.js", symbolicLink) ]
    [ ("/proj/src/link.js", Normal "/proj/src/real.js") ]
    [ ("/proj/src", Normal ["main.js"; "foo.js"; "real.js"; "link.js"]) ].

(** A disk whose [realpathSync] follows one link only: [/x] leads to [/y],
    which leads to the file [/z]; [/a] and [/b] name each other. No snapshot
    of a real disk answers so; the resolver's recursion is run on it all the
    same. *)
Definition oneHopDisk : FsModule :=
  tableFs id
    [ ("/x", symbolicLink); ("/y", symbolicLink); ("/z", regularFile);
      ("/a", symbolicLink); ("/b", symbolicLink) ]
    [ ("/x", Normal "/y"); ("/y", Normal "/z");
      ("/a", Normal "/b"); ("/b", Normal "/a") ]
    [ ("/", Normal ["x"; "y"; "z"; "a"; "b"]) ].

(** POSIX paths, as far as the examples need them: no [..] segments and no
    trailing slashes. The working directory is [/proj]. *)
Fixpoint afterLastSlash (acc s : string) : string :=
  match s with
  | EmptyString => acc
  | String c rest =>
      if Ascii.eqb c "/"%char then afterLastSlash EmptyString rest
      else afterLastSlash (acc +:+ String c EmptyString) rest
  end.

Fixpoint beforeLastSlash (s : string) : option string :=
  match s with
  | EmptyString => None
  | String c rest =>
      match beforeLastSlash rest with
      | Some d => Some (String c d)
      | None => if Ascii.eqb c "/"%char then Some EmptyString else None
      end
  end.

Definition startsWithSlash (s : string) : bool :=
  match s with
  | String c _ => Ascii.eqb c "/"%char
  | EmptyString => false
  end.

Definition joinSegment (cur seg : string) : string :=
  if startsWithSlash seg then seg
  else match seg with
       | EmptyString => cur
       | String c EmptyString => if Ascii.eqb c "."%char then cur else cur +:+ "/" +:+ seg
       | String c (String d rest) =>
           if Ascii.eqb c "."%char && Ascii.eqb d "/"%char then cur +:+ "/" +:+ rest
           else cur +:+ "/" +:+ seg
       end.

Definition posixPath : PathModule :=
  {| basename s := afterLastSlash EmptyString s;
     dirname s := match beforeLastSlash s with
                  | Some EmptyString => "/"
                  | Some d => d
                  | None => "."
                  end;
     isAbsolute := startsWithSlash;
     resolve segments := foldl joinSegment "/proj" segments |}.

Definition node : Host := {| processDefined := true |}.
Definition noProcess : Host := {| processDefined := false |}.

Definition followLinks : InputOptions := {| preserveSymlinks := false |}.
Definition keepLinks : InputOptions := {| preserveSymlinks := true |}.

(** The resolver of the plugin on a given disk, under Node with POSIX paths. *)
Definition resolveIdOn (disk : FsModule) (options : InputOptions) (fuel : nat)
    (importee : string) (importer : value) : Probing value :=
  @createResolveId disk posixPath node options fuel importee importer.

(** The context of a build in which this plugin is the only resolver, under
    Node with POSIX paths; [external] is the orchestrator's list of external
    modules. *)
Definition soleResolver (disk : FsModule) (options : InputOptions) (fuel : nat)
    (external : list string) : PluginContext :=
  {| isExternal s _ _ := bool_decide (s ∈ external);
     thisResolveId := @createResolveId disk posixPath node options fuel |}.

(** ** Predicates the statements use *)

Section Predicates.
Context {fs : FsModule} {paths : PathModule}.

(** A regular file at [path], listed under its own name by its directory. *)
Definition listedFile (path : string) : Prop :=
  ∃ st files,
    lstatSync path = Normal st ∧ isSymbolicLink st = false ∧ isFile st = true
    ∧ readdirSync (dirname path) = Normal files ∧ basename path ∈ files.

(** [path] is verified in place (its status is not a link to follow), and
    its directory's listing does not hold its name. *)
Definition unlistedInPlace (preserve : bool) (path : string) : Prop :=
  ∃ st files,
    lstatSync path = Normal st ∧ negb preserve && isSymbolicLink st = false
    ∧ readdirSync (dirname path) = Normal files ∧ basename path ∉ files.

(** [path] passed the check of [findFile] in place: its status is a regular
    file (or a link, with links preserved) and its directory lists its name. *)
Definition verifiedPath (preserve : bool) (path : string) : Prop :=
  ∃ st files,
    lstatSync path = Normal st ∧ negb preserve && isSymbolicLink st = false
    ∧ (preserve && isSymbolicLink st) || isFile st = true
    ∧ readdirSync (dirname path) = Normal files ∧ basename path ∈ files.

(** [realpathSync] answers with a path that is no link: what a snapshot of
    a disk answers. *)
Definition realpathsResolved : Prop :=
  ∀ path target st,
    realpathSync path = Normal target → lstatSync target = Normal st →
    isSymbolicLink st = false.
End Predicates.

Definition isRealpath (p : Probe) : bool :=
  match p with
  | Realpath _ => true
  | _ => false
  end.

(** * Properties *)

(** ** Evaluations *)

Example resolveImportMeta_iife_null :
  resolveImportMeta Null "bundle.js" "iife"
  = Some (Normal (Str "({ url: (document.currentScript && document.currentScript.src || new URL('bundle.js', document.baseURI).href) })")).
Proof. vm_compute. reflexivity. Qed.

Example resolveAssetUrl_cjs_img :
  resolveAssetUrl "img.png" "cjs"
  = Some (Normal (Str "(typeof document === 'undefined' ? new (require('u' + 'rl').URL)('file:' + __dirname + '/img.png').href : new URL((document.currentScript && document.currentScript.src || document.baseURI) + '/../img.png').href)")).
Proof. vm_compute. reflexivity. Qed.

Example resolveAssetUrl_esm :
  resolveAssetUrl "img.png" "esm"
  = Some (Throw (TypeError "relativeUrlMechanisms[format] is not a function")).
Proof. vm_compute. reflexivity. Qed.


Example resolveId_util :
  resolveIdOn projectDisk followLinks 1 "./util" (Str "/proj/src/main.js")
  = Some (Normal (Str "/proj/src/util.js"),
          [Lstat "/proj/src/util"; Lstat "/proj/src/util.mjs";
           Lstat "/proj/src/util.js"; Readdir "/proj/src"]).
Proof. vm_compute. reflexivity. Qed.

Example resolveId_link_followed :
  resolveIdOn projectDisk followLinks 2 "./link.js" (Str "/proj/src/main.js")
  = Some (Normal (Str "/proj/lib/real.js"),
          [Lstat "/proj/src/link.js"; Realpath "/proj/src/link.js";
           Lstat "/proj/lib/real.js"; Readdir "/proj/lib"]).
Proof. vm_compute. reflexivity. Qed.

Example resolveId_link_kept :
  resolveIdOn projectDisk keepLinks 1 "./link.js" (Str "/proj/src/main.js")
  = Some (Normal (Str "/proj/src/link.js"),
          [Lstat "/proj/src/link.js"; Readdir "/proj/src"]).
Proof. vm_compute. reflexivity. Qed.

Example resolveId_entry_point :
  resolveIdOn projectDisk followLinks 1 "src/main.js" Undefined
  = Some (Normal (Str "/proj/src/main.js"),
          [Lstat "/proj/src/main.js"; Readdir "/proj/src"]).
Proof. vm_compute. reflexivity. Qed.

Example findFile_one_hop :
  @findFile oneHopDisk posixPath 3 "/x" false
  = Some (Normal (Str "/z"),
          [Lstat "/x"; Realpath "/x"; Lstat "/y"; Realpath "/y"; Lstat "/z"; Readdir "/"]).
Proof. vm_compute. reflexivity. Qed.

Example findFile_ping_pong :
  @findFile oneHopDisk posixPath 5 "/a" false = None.
Proof. vm_compute. reflexivity. Qed.

(** ** Strings and tables *)

Lemma append_assoc (a b c : string) : (a +:+ b) +:+ c = a +:+ (b +:+ c).
Proof.
  induction a as [|ch a IH]; [reflexivity |].
  change (String ch ((a +:+ b) +:+ c) = String ch (a +:+ (b +:+ c))).
  now rewrite IH.
Qed.

Lemma getProperty_Absent {A : Type} (table : gmap string A) (key : string) :
  getProperty table key = Absent ↔ table !! key = None ∧ key ∉ objectPrototypeMembers.
Proof.
  unfold getProperty. destruct (table !! key) as [a|].
  - split; [discriminate | intros [? _]; discriminate].
  - case_bool_decide; split; try discriminate; intuition.
Qed.

Lemma getProperty_Own {A : Type} (table : gmap string A) (key : string) (a : A) :
  getProperty table key = Own a ↔ table !! key = Some a.
Proof.
  unfold getProperty. destruct (table !! key) as [b|].
  - split; congruence.
  - case_bool_decide; split; discriminate.
Qed.

(** The formats with an entry in each table. *)
Lemma importMetaUrlMechanisms_entries (format : string) :
  is_Some (importMetaUrlMechanisms !! format)
  ↔ format ∈ ["amd"; "cjs"; "iife"; "system"; "umd"].
Proof.
  rewrite <- not_eq_None_Some. unfold importMetaUrlMechanisms.
  rewrite <- not_elem_of_list_to_map. simpl.
  split; [apply dec_stable | auto].
Qed.

Lemma relativeUrlMechanisms_entries (format : string) :
  is_Some (relativeUrlMechanisms !! format) ↔ format ∈ outputFormats.
Proof.
  rewrite <- not_eq_None_Some. unfold relativeUrlMechanisms.
  rewrite <- not_elem_of_list_to_map. simpl.
  split; [apply dec_stable | auto].
Qed.

Lemma mechanism_nonempty (chunkId format : string) (entry : string → string) :
  importMetaUrlMechanisms !! format = Some entry → truthy (Str (entry chunkId)) = true.
Proof.
  intros Hentry.
  assert (Hin : format ∈ ["amd"; "cjs"; "iife"; "system"; "umd"])
    by (apply importMetaUrlMechanisms_entries; eauto).
  repeat (apply elem_of_cons in Hin as [-> | Hin]);
    try (vm_compute in Hentry; injection Hentry as <-; reflexivity).
  inversion Hin.
Qed.

(** Template literals are compared after their concatenations are brought
    to one association. *)
Ltac same_template :=
  unfold getRelativeUrlFromDocument, getUrlFromDocument, getResolveUrl; simpl default;
  rewrite ?append_assoc; reflexivity.

(** ** The mechanism tables *)

(** C8. For every relative path, the asset-URL table gives: for [es] an
    expression anchored on [import.meta.url]; for [cjs] and for [umd] one
    conditional expression testing [typeof document === 'undefined'], whose
    first branch builds a [file:] URL from [__dirname] and the path with the
    URL class of Node, and whose second branch builds the URL relative to the
    document's script (or base URI); for [amd] an expression on [module.uri],
    for [system] one on [module.meta.url]; for [iife] the document-relative
    expression alone. *)
Theorem relativeUrlMechanisms_by_format (relativePath : string) :
  let nonBrowser :=
    "new (require('u' + 'rl').URL)('file:' + __dirname + '/" +:+ relativePath +:+ "').href" in
  let browser :=
    "new URL((document.currentScript && document.currentScript.src || document.baseURI) + '/../"
      +:+ relativePath +:+ "').href" in
  let branching :=
    "(typeof document === 'undefined' ? " +:+ nonBrowser +:+ " : " +:+ browser +:+ ")" in
  resolveAssetUrl relativePath "es"
    = Some (Normal (Str ("new URL('" +:+ relativePath +:+ "', import.meta.url).href")))
  ∧ resolveAssetUrl relativePath "cjs" = Some (Normal (Str branching))
  ∧ resolveAssetUrl relativePath "umd" = Some (Normal (Str branching))
  ∧ resolveAssetUrl relativePath "amd"
    = Some (Normal (Str ("new URL(module.uri + '/../" +:+ relativePath
                           +:+ "', document.baseURI).href")))
  ∧ resolveAssetUrl relativePath "system"
    = Some (Normal (Str ("new URL('" +:+ relativePath +:+ "', module.meta.url).href")))
  ∧ resolveAssetUrl relativePath "iife" = Some (Normal (Str browser))
  ∧ getRelativeUrlFromDocument relativePath = browser.
Proof.
  intros nonBrowser browser branching. subst nonBrowser browser branching.
  unfold resolveAssetUrl.
  repeat split;
    lazymatch goal with
    | |- context [getProperty relativeUrlMechanisms ?format] =>
        let entry := eval vm_compute in (relativeUrlMechanisms !! format) in
        lazymatch entry with
        | Some ?f =>
            replace (getProperty relativeUrlMechanisms format) with (Own f)
              by (symmetry; apply getProperty_Own; vm_compute; reflexivity)
        end;
        do 2 f_equal; f_equal; same_template
    | |- _ => same_template
    end.
Qed.

(** C2. For every chunk id: with property [null] and format [iife] the hook
    returns the object literal [({ url: m })] around the URL mechanism [m] of
    [iife], which is what it returns for the property ['url']; with any
    property other than [null] and ['url'] it returns the string
    ['undefined']; with property ['url'] and format [es] it returns
    [undefined], the table holding no [es] entry. *)
Theorem resolveImportMeta_iife_and_es (chunkId : string) (prop : value) :
  prop ≠ Null → prop ≠ Str "url" →
  resolveImportMeta Null chunkId "iife"
    = Some (Normal (Str ("({ url: " +:+ getUrlFromDocument chunkId +:+ " })")))
  ∧ resolveImportMeta (Str "url") chunkId "iife"
    = Some (Normal (Str (getUrlFromDocument chunkId)))
  ∧ resolveImportMeta prop chunkId "iife" = Some (Normal (Str "undefined"))
  ∧ resolveImportMeta (Str "url") chunkId "es" = Some (Normal Undefined)
  ∧ importMetaUrlMechanisms !! "es" = None.
Proof.
  intros Hnull Hurl.
  assert (Hiife : getProperty importMetaUrlMechanisms "iife" = Own getUrlFromDocument)
    by (apply getProperty_Own; reflexivity).
  assert (Htruthy : truthy (Str (getUrlFromDocument chunkId)) = true)
    by (apply (mechanism_nonempty chunkId "iife"); reflexivity).
  unfold resolveImportMeta. rewrite Hiife. cbv zeta. rewrite Htruthy.
  unfold strictEq.
  rewrite (bool_decide_eq_false_2 (prop = Null)) by exact Hnull.
  rewrite (bool_decide_eq_false_2 (prop = Str "url")) by exact Hurl.
  repeat split; vm_compute; reflexivity.
Qed.

Lemma resolveImportMeta_iife_and_es_witness :
  resolveImportMeta Null "bundle.js" "iife"
    = Some (Normal (Str "({ url: (document.currentScript && document.currentScript.src || new URL('bundle.js', document.baseURI).href) })"))
  ∧ resolveImportMeta (Str "other") "bundle.js" "iife" = Some (Normal (Str "undefined"))
  ∧ resolveImportMeta (Str "url") "bundle.js" "es" = Some (Normal Undefined).
Proof.
  destruct (resolveImportMeta_iife_and_es "bundle.js" (Str "other"))
    as (Hnull & _ & Hother & Hes & _); [discriminate | discriminate |].
  split; [exact Hnull | split; [exact Hother | exact Hes]].
Defined.

(** *** Formats with no entry *)

Ltac literal_in := apply (bool_decide_unpack _); vm_compute; exact I.
Ltac literal_not_in H := apply (bool_decide_pack _) in H; vm_compute in H; destruct H.
Ltac member_cases Hin :=
  repeat (apply elem_of_cons in Hin as [-> | Hin]); [.. | inversion Hin].

Lemma getProperty_Inherited {A : Type} (table : gmap string A) (key member : string) :
  getProperty table key = Inherited member
  ↔ member = key ∧ table !! key = None ∧ key ∈ objectPrototypeMembers.
Proof.
  unfold getProperty. destruct (table !! key) as [a|].
  - split; [discriminate | intros (_ & ? & _); discriminate].
  - case_bool_decide; split.
    + intros [= <-]. auto.
    + intros (-> & _ & _). reflexivity.
    + discriminate.
    + intros (_ & _ & ?). contradiction.
Qed.

(** Of the inherited members, the call of exactly three raises. *)
Lemma callInherited_throws (own : bool) (member arg : string) :
  member ∈ objectPrototypeMembers →
  (∃ e, callInherited own member arg = Throw e) ↔ member ∈ throwingMembers.
Proof.
  intros Hin. member_cases Hin; split;
    solve [ intros [e He]; discriminate He
          | intros Hthrow; literal_not_in Hthrow
          | intros _; literal_in
          | intros _; eexists; reflexivity ].
Qed.

Lemma importMetaOf_no_throw (prop : value) (mechanism : anyValue) (e : JsError) :
  importMetaOf prop mechanism ≠ Some (Throw e).
Proof.
  unfold importMetaOf. destruct (truthyAny mechanism); [|discriminate].
  destruct (strictEq prop Null); [destruct (toText mechanism); discriminate |].
  destruct (strictEq prop (Str "url")); [destruct (toPlain mechanism); discriminate |].
  discriminate.
Qed.

Lemma throwingMembers_inherited {A : Type} (table : gmap string A) (format : string) :
  format ∈ throwingMembers → table !! format = None →
  getProperty table format = Inherited format.
Proof.
  intros Hin Hnone. apply getProperty_Inherited. split; [reflexivity |].
  split; [exact Hnone |]. member_cases Hin; literal_in.
Qed.

Lemma throwingMembers_no_entry (format : string) :
  format ∈ throwingMembers →
  importMetaUrlMechanisms !! format = None ∧ relativeUrlMechanisms !! format = None.
Proof. intros Hin. member_cases Hin; split; vm_compute; reflexivity. Qed.

(** [resolveAssetUrl] calls the entry without a test: a format with no entry
    makes the call raise. [resolveImportMeta] tests what it reads, and what
    it reads for [__proto__] is the prototype object, so that the call
    raises all the same. For [toString], [resolveAssetUrl] returns what the
    inherited [toString] answers. *)
Lemma resolveAssetUrl_unknown_format_throws :
  relativeUrlMechanisms !! "esm" = None
  ∧ ("esm" ∉ objectPrototypeMembers)
  ∧ resolveAssetUrl "img.png" "esm"
    = Some (Throw (TypeError "relativeUrlMechanisms[format] is not a function"))
  ∧ resolveAssetUrl "img.png" "esm" ≠ Some (Normal Undefined)
  ∧ importMetaUrlMechanisms !! "__proto__" = None
  ∧ resolveImportMeta (Str "url") "bundle.js" "__proto__"
    = Some (Throw (TypeError "table[format] is not a function"))
  ∧ relativeUrlMechanisms !! "toString" = None
  ∧ resolveAssetUrl "img.png" "toString" = Some (Normal (Str "[object Object]")).
Proof.
  split; [reflexivity |]. split; [intros Hin; literal_not_in Hin |].
  split; [vm_compute; reflexivity |]. split; [discriminate |].
  repeat split; vm_compute; reflexivity.
Qed.

(** C1, as the code has it. [resolveImportMeta] returns [undefined], nothing
    to synthesize, for every format for which the table's lookup is
    [undefined]: a format that is no key of the table and names no member
    every object inherits; it raises for exactly the inherited names
    [__proto__], [__defineGetter__] and [__defineSetter__], whose call it
    makes. [resolveAssetUrl] makes the call without a test: it raises for
    exactly the formats that are no key of its table and either name no
    inherited member (a TypeError, for calling [undefined]) or name one of
    those three; it returns an expression for every format of the fixed set
    amd, cjs, es, iife, system, umd. *)
Theorem format_lookup_miss (format : string) :
  (importMetaUrlMechanisms !! format = None → format ∉ objectPrototypeMembers →
   ∀ prop chunkId, resolveImportMeta prop chunkId format = Some (Normal Undefined))
  ∧ (∀ prop chunkId,
       (∃ e, resolveImportMeta prop chunkId format = Some (Throw e))
       ↔ format ∈ throwingMembers)
  ∧ (relativeUrlMechanisms !! format = None → format ∉ objectPrototypeMembers →
     ∀ relativeAssetPath,
       ∃ msg, resolveAssetUrl relativeAssetPath format = Some (Throw (TypeError msg)))
  ∧ (∀ relativeAssetPath,
       (∃ e, resolveAssetUrl relativeAssetPath format = Some (Throw e))
       ↔ relativeUrlMechanisms !! format = None
         ∧ (format ∉ objectPrototypeMembers ∨ format ∈ throwingMembers))
  ∧ (format ∈ outputFormats →
     ∀ relativeAssetPath,
       ∃ expression,
         resolveAssetUrl relativeAssetPath format = Some (Normal (Str expression))).
Proof.
  split; [|split; [|split; [|split]]].
  - intros Hnone Hproto prop chunkId. unfold resolveImportMeta.
    now rewrite (proj2 (getProperty_Absent _ _) (conj Hnone Hproto)).
  - intros prop chunkId. unfold resolveImportMeta. split.
    + intros [e He].
      destruct (getProperty importMetaUrlMechanisms format) as [entry|member|] eqn:Hget.
      * cbv zeta in He. destruct (truthy _); discriminate.
      * apply getProperty_Inherited in Hget as (-> & _ & Hin).
        destruct (callInherited _ format chunkId) as [mechanism|e'] eqn:Hcall.
        -- now destruct (importMetaOf_no_throw prop mechanism e).
        -- exact (proj1 (callInherited_throws _ _ _ Hin) (ex_intro _ e' Hcall)).
      * discriminate.
    + intros Hin. destruct (throwingMembers_no_entry format Hin) as [Hnone _].
      rewrite (throwingMembers_inherited _ format Hin Hnone).
      assert (Hmember : format ∈ objectPrototypeMembers)
        by (apply (getProperty_Inherited importMetaUrlMechanisms format format);
            now apply throwingMembers_inherited).
      destruct (proj2 (callInherited_throws
                         (bool_decide (is_Some (importMetaUrlMechanisms !! chunkId)))
                         format chunkId Hmember) Hin) as [e ->].
      eauto.
  - intros Hnone Hproto path. unfold resolveAssetUrl.
    rewrite (proj2 (getProperty_Absent _ _) (conj Hnone Hproto)). eauto.
  - intros path. unfold resolveAssetUrl. split.
    + intros [e He].
      destruct (getProperty relativeUrlMechanisms format) as [entry|member|] eqn:Hget.
      * discriminate.
      * apply getProperty_Inherited in Hget as (-> & Hnone & Hin).
        split; [exact Hnone |]. right.
        destruct (callInherited _ format path) as [answer|e'] eqn:Hcall.
        -- destruct (toPlain answer); discriminate.
        -- exact (proj1 (callInherited_throws _ _ _ Hin) (ex_intro _ e' Hcall)).
      * apply getProperty_Absent in Hget as [Hnone Hproto]. auto.
    + intros [Hnone [Hproto | Hin]].
      * rewrite (proj2 (getProperty_Absent _ _) (conj Hnone Hproto)). eauto.
      * rewrite (throwingMembers_inherited _ format Hin Hnone).
        assert (Hmember : format ∈ objectPrototypeMembers)
          by (apply (getProperty_Inherited relativeUrlMechanisms format format);
              now apply throwingMembers_inherited).
        destruct (proj2 (callInherited_throws
                           (bool_decide (is_Some (relativeUrlMechanisms !! path)))
                           format path Hmember) Hin) as [e ->].
        eauto.
  - intros Hin path. apply relativeUrlMechanisms_entries in Hin as [entry Hentry].
    unfold resolveAssetUrl. rewrite (proj2 (getProperty_Own _ _ _) Hentry). eauto.
Qed.

Lemma format_lookup_miss_witness :
  resolveImportMeta (Str "url") "bundle.js" "esm" = Some (Normal Undefined)
  ∧ (∃ e, resolveImportMeta Null "bundle.js" "__defineGetter__" = Some (Throw e))
  ∧ (∃ msg, resolveAssetUrl "img.png" "esm" = Some (Throw (TypeError msg)))
  ∧ (∃ e, resolveAssetUrl "img.png" "__proto__" = Some (Throw e))
  ∧ (∃ expression, resolveAssetUrl "img.png" "es" = Some (Normal (Str expression))).
Proof.
  assert (Hesm : "esm" ∉ objectPrototypeMembers) by (intros Hin; literal_not_in Hin).
  destruct (format_lookup_miss "esm") as (Hmeta & _ & Hasset & _ & _).
  destruct (format_lookup_miss "__defineGetter__") as (_ & Hmetathrows & _).
  destruct (format_lookup_miss "__proto__") as (_ & _ & _ & Hassetthrows & _).
  destruct (format_lookup_miss "es") as (_ & _ & _ & _ & Hformats).
  split; [|split; [|split; [|split]]].
  - apply Hmeta; [reflexivity | exact Hesm].
  - apply Hmetathrows. literal_in.
  - apply Hasset; [reflexivity | exact Hesm].
  - apply Hassetthrows. split; [reflexivity | right; literal_in].
  - apply Hformats. literal_in.
Defined.

(** ** File verification *)

Lemma indexOfFrom_range (files : list string) (name : string) (i : Z) :
  (0 ≤ i)%Z → indexOfFrom files name i = (-1)%Z ∨ (i ≤ indexOfFrom files name i)%Z.
Proof.
  revert i. induction files as [|f rest IH]; intros i Hi; simpl; [now left |].
  destruct (String.eqb f name); [right; lia |].
  destruct (IH (i + 1)%Z) as [?|?]; [lia | now left | right; lia].
Qed.

Lemma indexOfFrom_found (files : list string) (name : string) (i : Z) :
  (0 ≤ i)%Z → indexOfFrom files name i ≠ (-1)%Z ↔ name ∈ files.
Proof.
  revert i. induction files as [|f rest IH]; intros i Hi; simpl.
  - split; [congruence | intros Hin; inversion Hin].
  - destruct (String.eqb_spec f name) as [-> | Hne].
    + split; [intros _; left | lia].
    + rewrite IH by lia. rewrite elem_of_cons. intuition congruence.
Qed.

(** [files.indexOf(name) !== -1] says that [name] is one of [files],
    character for character. *)
Lemma indexOf_found (files : list string) (name : string) :
  negb (indexOf files name =? -1)%Z = bool_decide (name ∈ files).
Proof.
  unfold indexOf. pose proof (indexOfFrom_found files name 0 ltac:(lia)) as H.
  destruct (Z.eqb_spec (indexOfFrom files name 0) (-1)) as [Heq | Hne]; simpl.
  - symmetry. apply bool_decide_eq_false. intros Hin. apply H in Hin. contradiction.
  - symmetry. apply bool_decide_eq_true. now apply H.
Qed.

Lemma after_nil {A : Type} (m : Probing A) : after [] m = m.
Proof. destruct m as [[r log]|]; reflexivity. Qed.

Lemma after_after {A : Type} (l1 l2 : list Probe) (m : Probing A) :
  after l1 (after l2 m) = after (l1 ++ l2) m.
Proof. destruct m as [[r log]|]; simpl; [now rewrite app_assoc | reflexivity]. Qed.

(** A handler that returns lets no error out of the [try]. *)
Lemma tryCatch_suppress {A : Type} (body : Probing A) (a : A) (e : JsError)
    (log : list Probe) :
  tryCatch body (λ _, ret a) ≠ Some (Throw e, log).
Proof. destruct body as [[[v|e'] l]|]; simpl; discriminate. Qed.

Lemma tryCatch_normal {A : Type} (body : Probing A) (handler : JsError → Probing A) :
  (∀ e log, body ≠ Some (Throw e, log)) → tryCatch body handler = body.
Proof.
  intros Hbody. destruct body as [[[v|e] l]|]; simpl; try reflexivity.
  now destruct (Hbody e l).
Qed.

Section Verification.
Context {fs : FsModule} {paths : PathModule}.

Lemma findFile_no_throw (fuel : nat) (file : string) (preserve : bool)
    (e : JsError) (log : list Probe) :
  findFile fuel file preserve ≠ Some (Throw e, log).
Proof. destruct fuel; simpl; [discriminate | apply tryCatch_suppress]. Qed.

(** The status lookup fails. *)
Lemma findFile_lstat_error (n : nat) (file : string) (preserve : bool) (e : JsError) :
  lstatSync file = Throw e →
  findFile (S n) file preserve = Some (Normal Undefined, [Lstat file]).
Proof. intros Hst. simpl. unfold probe, bind. rewrite Hst. reflexivity. Qed.

(** A link, links followed: the same verification runs on the real path. *)
Lemma findFile_follow (n : nat) (file target : string) (st : Stats) :
  lstatSync file = Normal st → isSymbolicLink st = true →
  realpathSync file = Normal target →
  findFile (S n) file false
  = after [Lstat file; Realpath file] (findFile n target false).
Proof.
  intros Hst Hlink Hreal. simpl. unfold probe, bind. rewrite Hst. simpl.
  rewrite Hlink, Hreal. simpl. rewrite after_after. simpl.
  apply tryCatch_normal. intros e log.
  pose proof (findFile_no_throw n target false) as Hno.
  destruct (findFile n target false) as [[[v|e'] l]|]; simpl; try discriminate.
  now destruct (Hno e' l).
Qed.

(** A link, links followed, and the real path cannot be read. *)
Lemma findFile_realpath_error (n : nat) (file : string) (st : Stats) (e : JsError) :
  lstatSync file = Normal st → isSymbolicLink st = true →
  realpathSync file = Throw e →
  findFile (S n) file false = Some (Normal Undefined, [Lstat file; Realpath file]).
Proof.
  intros Hst Hlink Hreal. simpl. unfold probe, bind. rewrite Hst. simpl.
  rewrite Hlink, Hreal. reflexivity.
Qed.

(** A regular file, or a link with links preserved: the case check. *)
Lemma findFile_in_place (n : nat) (file : string) (preserve : bool) (st : Stats)
    (files : list string) :
  lstatSync file = Normal st → negb preserve && isSymbolicLink st = false →
  (preserve && isSymbolicLink st) || isFile st = true →
  readdirSync (dirname file) = Normal files →
  findFile (S n) file preserve
  = Some (Normal (if bool_decide (basename file ∈ files) then Str file else Undefined),
          [Lstat file; Readdir (dirname file)]).
Proof.
  intros Hst Hfollow Hcheck Hdir. simpl. unfold probe, bind. rewrite Hst. simpl.
  rewrite Hfollow, Hcheck, Hdir. simpl. rewrite indexOf_found.
  now destruct (bool_decide _).
Qed.

(** The same, and the directory cannot be listed. *)
Lemma findFile_readdir_error (n : nat) (file : string) (preserve : bool) (st : Stats)
    (e : JsError) :
  lstatSync file = Normal st → negb preserve && isSymbolicLink st = false →
  (preserve && isSymbolicLink st) || isFile st = true →
  readdirSync (dirname file) = Throw e →
  findFile (S n) file preserve
  = Some (Normal Undefined, [Lstat file; Readdir (dirname file)]).
Proof.
  intros Hst Hfollow Hcheck Hdir. simpl. unfold probe, bind. rewrite Hst. simpl.
  rewrite Hfollow, Hcheck, Hdir. reflexivity.
Qed.

(** Neither a link nor a regular file (a directory, a socket, ...). *)
Lemma findFile_other (n : nat) (file : string) (preserve : bool) (st : Stats) :
  lstatSync file = Normal st → negb preserve && isSymbolicLink st = false →
  (preserve && isSymbolicLink st) || isFile st = false →
  findFile (S n) file preserve = Some (Normal Undefined, [Lstat file]).
Proof.
  intros Hst Hfollow Hcheck. simpl. unfold probe, bind. rewrite Hst. simpl.
  rewrite Hfollow, Hcheck. reflexivity.
Qed.

(** The fuel is the embedding's bound on the recursion of [findFile], which
    the source does not have: a result at some fuel is the result at any
    greater fuel. *)
Lemma findFile_fuel_mono (n m : nat) (file : string) (preserve : bool)
    (r : completion value * list Probe) :
  n ≤ m → findFile n file preserve = Some r → findFile m file preserve = Some r.
Proof.
  revert m file r. induction n as [|n IH]; intros m file r Hle; [discriminate |].
  destruct m as [|m]; [lia |]. assert (Hnm : n ≤ m) by lia.
  destruct (lstatSync file) as [st|e] eqn:Hst;
    [|now rewrite !(findFile_lstat_error _ _ _ e Hst)].
  destruct (negb preserve && isSymbolicLink st) eqn:Hfollow.
  - apply andb_true_iff in Hfollow as [Hp Hlink].
    apply negb_true_iff in Hp. subst preserve.
    destruct (realpathSync file) as [target|e] eqn:Hreal;
      [|now rewrite !(findFile_realpath_error _ _ st e Hst Hlink Hreal)].
    rewrite !(findFile_follow _ _ target st Hst Hlink Hreal).
    destruct (findFile n target false) as [r'|] eqn:Hrec; [|discriminate].
    now rewrite (IH m target r' Hnm Hrec).
  - destruct ((preserve && isSymbolicLink st) || isFile st) eqn:Hcheck;
      [|now rewrite !(findFile_other _ _ _ st Hst Hfollow Hcheck)].
    destruct (readdirSync (dirname file)) as [files|e] eqn:Hdir.
    + now rewrite !(findFile_in_place _ _ _ st files Hst Hfollow Hcheck Hdir).
    + now rewrite !(findFile_readdir_error _ _ _ st e Hst Hfollow Hcheck Hdir).
Qed.
End Verification.

(** ** Extension inference and the resolver *)

Section Resolution.
Context {fs : FsModule} {paths : PathModule} {host : Host}.

Lemma addJsExtensionIfNecessary_first (fuel : nat) (file : string) (preserve : bool)
    (v : value) (l : list Probe) :
  findFile fuel file preserve = Some (Normal v, l) → truthy v = true →
  addJsExtensionIfNecessary fuel file preserve = Some (Normal v, l).
Proof.
  intros H1 Hv. unfold addJsExtensionIfNecessary, bind. rewrite H1, Hv. simpl.
  now rewrite app_nil_r.
Qed.

Lemma addJsExtensionIfNecessary_second (fuel : nat) (file : string) (preserve : bool)
    (v1 v : value) (l1 l : list Probe) :
  findFile fuel file preserve = Some (Normal v1, l1) → truthy v1 = false →
  findFile fuel (file +:+ ".mjs") preserve = Some (Normal v, l) → truthy v = true →
  addJsExtensionIfNecessary fuel file preserve = Some (Normal v, l1 ++ l).
Proof.
  intros H1 Hv1 H2 Hv. unfold addJsExtensionIfNecessary, bind.
  rewrite H1, Hv1, H2, Hv. simpl. now rewrite app_nil_r.
Qed.

Lemma addJsExtensionIfNecessary_third (fuel : nat) (file : string) (preserve : bool)
    (v1 v2 v : value) (l1 l2 l : list Probe) :
  findFile fuel file preserve = Some (Normal v1, l1) → truthy v1 = false →
  findFile fuel (file +:+ ".mjs") preserve = Some (Normal v2, l2) → truthy v2 = false →
  findFile fuel (file +:+ ".js") preserve = Some (Normal v, l) →
  addJsExtensionIfNecessary fuel file preserve = Some (Normal v, l1 ++ l2 ++ l).
Proof.
  intros H1 Hv1 H2 Hv2 H3. unfold addJsExtensionIfNecessary, bind.
  rewrite H1, Hv1, H2, Hv2, H3. simpl. now rewrite app_nil_r.
Qed.

Lemma addJsExtensionIfNecessary_no_throw (fuel : nat) (file : string) (preserve : bool)
    (e : JsError) (log : list Probe) :
  addJsExtensionIfNecessary fuel file preserve ≠ Some (Throw e, log).
Proof.
  unfold addJsExtensionIfNecessary, bind.
  pose proof (findFile_no_throw fuel file preserve) as N1.
  pose proof (findFile_no_throw fuel (file +:+ ".mjs") preserve) as N2.
  pose proof (findFile_no_throw fuel (file +:+ ".js") preserve) as N3.
  destruct (findFile fuel file preserve) as [[[v1|e1] l1]|];
    [|now destruct (N1 e1 l1) | discriminate].
  destruct (truthy v1); [discriminate |].
  destruct (findFile fuel (file +:+ ".mjs") preserve) as [[[v2|e2] l2]|];
    [|now destruct (N2 e2 l2) | discriminate].
  destruct (truthy v2); [discriminate |].
  destruct (findFile fuel (file +:+ ".js") preserve) as [[[v3|e3] l3]|];
    [discriminate | now destruct (N3 e3 l3) | discriminate].
Qed.

Lemma createResolveId_no_process (options : InputOptions) (fuel : nat)
    (importee : string) (importer : value) :
  processDefined = false →
  createResolveId options fuel importee importer
  = Some (Throw (RollupError "MISSING_PROCESS"), []).
Proof. intros Hp. unfold createResolveId. now rewrite Hp. Qed.

Lemma createResolveId_composed (options : InputOptions) (fuel : nat)
    (importee : string) (importer : value) :
  processDefined = true →
  importer = Undefined ∨ isAbsolute importee = true ∨ charAt0 importee = Str "." →
  createResolveId options fuel importee importer
  = addJsExtensionIfNecessary fuel (composedPath importee importer)
      (preserveSymlinks options).
Proof.
  intros Hp Hcase. unfold createResolveId, strictEq. rewrite Hp. simpl.
  rewrite after_nil.
  destruct Hcase as [-> | [-> | ->]]; simpl;
    rewrite ?andb_false_r; reflexivity.
Qed.

Lemma createResolveId_no_throw (options : InputOptions) (fuel : nat)
    (importee : string) (importer : value) (e : JsError) (log : list Probe) :
  processDefined = true →
  createResolveId options fuel importee importer ≠ Some (Throw e, log).
Proof.
  intros Hp. unfold createResolveId. rewrite Hp. simpl. rewrite after_nil.
  destruct (_ && _); [discriminate | apply addJsExtensionIfNecessary_no_throw].
Qed.
End Resolution.

(** ** The resolver's contract *)

Section Contract.
Context {fs : FsModule} {paths : PathModule} {host : Host}.

Lemma findFile_listed (n : nat) (candidate : string) (preserve : bool) :
  listedFile candidate →
  findFile (S n) candidate preserve
  = Some (Normal (Str candidate), [Lstat candidate; Readdir (dirname candidate)]).
Proof.
  intros (st & files & Hst & Hlink & Hfile & Hdir & Hin).
  assert (Hfollow : negb preserve && isSymbolicLink st = false)
    by (rewrite Hlink; apply andb_false_r).
  assert (Hcheck : (preserve && isSymbolicLink st) || isFile st = true)
    by (rewrite Hfile; apply orb_true_r).
  rewrite (findFile_in_place n candidate preserve st files Hst Hfollow Hcheck Hdir).
  now rewrite bool_decide_eq_true_2.
Qed.

Lemma nonempty_truthy (s : string) : s ≠ "" → truthy (Str s) = true.
Proof. intros Hne. simpl. now apply negb_true_iff, String.eqb_neq. Qed.

Lemma extension_truthy (s ext : string) : ext ≠ "" → truthy (Str (s +:+ ext)) = true.
Proof. intros Hext. apply nonempty_truthy. destruct s; [exact Hext | discriminate]. Qed.

(** C4. Under Node, a bare specifier (not absolute, first character other
    than a dot) with a defined importer resolves to [null], and no call on
    the file system is made: the record of probes is empty, whatever the
    fuel and the options. *)
Theorem resolveId_bare_specifier (options : InputOptions) (fuel : nat)
    (importee : string) (importer : value) :
  processDefined = true → importer ≠ Undefined →
  isAbsolute importee = false → charAt0 importee ≠ Str "." →
  createResolveId options fuel importee importer = Some (Normal Null, []).
Proof.
  intros Hp Himp Habs Hdot. unfold createResolveId, strictEq. rewrite Hp, Habs. simpl.
  rewrite (bool_decide_eq_false_2 _ Himp), (bool_decide_eq_false_2 _ Hdot).
  reflexivity.
Qed.

(** C5. The resolver, for a specifier it does not skip, is the extension
    inference on the composed path under the option's flag: it verifies the
    composed path, then the path with [.mjs], then the path with [.js], and
    returns what the first verification that yields a path yields; a later
    candidate is not probed. A regular file listed by its directory under its
    own name verifies as itself, so that such a file at the first of the
    three paths that verifies is what [resolveId] returns. *)
Theorem extension_inference_first_success (options : InputOptions) (fuel : nat)
    (importee : string) (importer : value) (v1 : value) (l1 : list Probe) :
  processDefined = true →
  importer = Undefined ∨ isAbsolute importee = true ∨ charAt0 importee = Str "." →
  let file := composedPath importee importer in
  let preserve := preserveSymlinks options in
  findFile fuel file preserve = Some (Normal v1, l1) →
  createResolveId options fuel importee importer
  = addJsExtensionIfNecessary fuel file preserve
  ∧ (truthy v1 = true →
     createResolveId options fuel importee importer = Some (Normal v1, l1))
  ∧ (truthy v1 = false →
     ∀ v2 l2, findFile fuel (file +:+ ".mjs") preserve = Some (Normal v2, l2) →
     (truthy v2 = true →
      createResolveId options fuel importee importer = Some (Normal v2, l1 ++ l2))
     ∧ (truthy v2 = false →
        ∀ v3 l3, findFile fuel (file +:+ ".js") preserve = Some (Normal v3, l3) →
        createResolveId options fuel importee importer
        = Some (Normal v3, l1 ++ l2 ++ l3)))
  ∧ (∀ n candidate, listedFile candidate →
     findFile (S n) candidate preserve
     = Some (Normal (Str candidate), [Lstat candidate; Readdir (dirname candidate)]))
  ∧ (∀ n, fuel = S n → file ≠ "" → listedFile file →
     createResolveId options fuel importee importer
     = Some (Normal (Str file), [Lstat file; Readdir (dirname file)]))
  ∧ (∀ n, fuel = S n → truthy v1 = false → listedFile (file +:+ ".mjs") →
     createResolveId options fuel importee importer
     = Some (Normal (Str (file +:+ ".mjs")),
             l1 ++ [Lstat (file +:+ ".mjs"); Readdir (dirname (file +:+ ".mjs"))]))
  ∧ (∀ n v2 l2, fuel = S n → truthy v1 = false →
     findFile fuel (file +:+ ".mjs") preserve = Some (Normal v2, l2) →
     truthy v2 = false → listedFile (file +:+ ".js") →
     createResolveId options fuel importee importer
     = Some (Normal (Str (file +:+ ".js")),
             l1 ++ l2 ++ [Lstat (file +:+ ".js"); Readdir (dirname (file +:+ ".js"))])).
Proof.
  intros Hp Hcase file preserve H1.
  rewrite (createResolveId_composed options fuel importee importer Hp Hcase).
  fold file preserve.
  split; [reflexivity |]. split; [|split; [|split; [|split; [|split]]]].
  - intros Hv1. now apply addJsExtensionIfNecessary_first.
  - intros Hv1 v2 l2 H2. split.
    + intros Hv2. now apply (addJsExtensionIfNecessary_second _ _ _ v1).
    + intros Hv2 v3 l3 H3. now apply (addJsExtensionIfNecessary_third _ _ _ v1 v2).
  - intros n candidate. apply findFile_listed.
  - intros n -> Hne Hl.
    apply addJsExtensionIfNecessary_first;
      [now apply findFile_listed | now apply nonempty_truthy].
  - intros n -> Hv1 Hl.
    apply (addJsExtensionIfNecessary_second _ _ _ v1 _ _ _ H1 Hv1);
      [now apply findFile_listed | now apply extension_truthy].
  - intros n v2 l2 -> Hv1 H2 Hv2 Hl.
    apply (addJsExtensionIfNecessary_third _ _ _ v1 v2 _ _ _ _ H1 Hv1 H2 Hv2).
    now apply findFile_listed.
Qed.


(** What one call of [findFile] yields when the status of [file] is not a
    link to follow: a result at any fuel from one on, with no real path
    read. *)
Lemma findFile_in_place_total (file : string) (preserve : bool) :
  (∀ st, lstatSync file = Normal st → negb preserve && isSymbolicLink st = false) →
  ∃ v log,
    (∀ n, findFile (S n) file preserve = Some (Normal v, log))
    ∧ List.filter isRealpath log = [].
Proof.
  intros Hplace. destruct (lstatSync file) as [st|e] eqn:Hst.
  - specialize (Hplace st eq_refl).
    destruct ((preserve && isSymbolicLink st) || isFile st) eqn:Hcheck.
    + destruct (readdirSync (dirname file)) as [files|e] eqn:Hdir.
      * exists (if bool_decide (basename file ∈ files) then Str file else Undefined),
          [Lstat file; Readdir (dirname file)].
        split; [intros n | reflexivity].
        apply (findFile_in_place n file preserve st files Hst Hplace Hcheck Hdir).
      * exists Undefined, [Lstat file; Readdir (dirname file)].
        split; [intros n | reflexivity].
        apply (findFile_readdir_error n file preserve st e Hst Hplace Hcheck Hdir).
    + exists Undefined, [Lstat file]. split; [intros n | reflexivity].
      apply (findFile_other n file preserve st Hst Hplace Hcheck).
  - exists Undefined, [Lstat file]. split; [intros n | reflexivity].
    apply (findFile_lstat_error n file preserve e Hst).
Qed.

(** C9. An error of the status lookup, of the real-path read or of the
    directory listing ends the verification of the candidate with
    [undefined], the candidate taken as absent; [findFile] lets no error
    out at any fuel, nor does the extension inference; the resolver lets
    no error of the file system out, and under Node no error at all. *)
Theorem probe_errors_suppressed (n : nat) (file : string) (preserve : bool)
    (e : JsError) :
  (lstatSync file = Throw e →
   findFile (S n) file preserve = Some (Normal Undefined, [Lstat file]))
  ∧ (∀ st, lstatSync file = Normal st → isSymbolicLink st = true →
     realpathSync file = Throw e →
     findFile (S n) file false = Some (Normal Undefined, [Lstat file; Realpath file]))
  ∧ (∀ st, lstatSync file = Normal st → negb preserve && isSymbolicLink st = false →
     readdirSync (dirname file) = Throw e →
     ∃ log, findFile (S n) file preserve = Some (Normal Undefined, log))
  ∧ (∀ fuel e' log, findFile fuel file preserve ≠ Some (Throw e', log))
  ∧ (∀ fuel e' log,
       addJsExtensionIfNecessary fuel file preserve ≠ Some (Throw e', log))
  ∧ (∀ options fuel importee importer code log,
       createResolveId options fuel importee importer ≠ Some (Throw (FsError code), log))
  ∧ (processDefined = true →
     ∀ options fuel importee importer e' log,
       createResolveId options fuel importee importer ≠ Some (Throw e', log)).
Proof.
  split; [|split; [|split; [|split; [|split; [|split]]]]].
  - apply findFile_lstat_error.
  - intros st. apply findFile_realpath_error.
  - intros st Hst Hplace Hdir.
    destruct ((preserve && isSymbolicLink st) || isFile st) eqn:Hcheck.
    + eexists. apply (findFile_readdir_error n file preserve st e); assumption.
    + eexists. apply (findFile_other n file preserve st); assumption.
  - intros fuel e' log. apply findFile_no_throw.
  - intros fuel e' log. apply addJsExtensionIfNecessary_no_throw.
  - intros options fuel importee importer code log.
    destruct processDefined eqn:Hp; [now apply createResolveId_no_throw |].
    now rewrite createResolveId_no_process.
  - intros Hp options fuel importee importer e' log. now apply createResolveId_no_throw.
Qed.

(** C10. On a snapshot of the disk, where a real path is no link, the
    verification of any file ends: from fuel two on, that is with at most
    one recursive call, it yields one and the same result, having read at
    most one real path. When the real path of a link cannot be read (which
    is how a cycle of links answers), the verification ends at once with
    [undefined]. *)
Theorem findFile_terminates_on_snapshot (file : string) (preserve : bool) :
  realpathsResolved →
  (∃ v log,
     (∀ fuel, 2 ≤ fuel → findFile fuel file preserve = Some (Normal v, log))
     ∧ length (List.filter isRealpath log) ≤ 1)
  ∧ (∀ n st e, lstatSync file = Normal st → isSymbolicLink st = true →
       realpathSync file = Throw e →
       findFile (S n) file false
       = Some (Normal Undefined, [Lstat file; Realpath file])).
Proof.
  intros Hsnapshot. split; [|intros n st e; apply findFile_realpath_error].
  assert (Hfuel : ∀ fuel, 2 ≤ fuel → ∃ k, fuel = S (S k))
    by (intros [|[|k]] Hle; [lia | lia | eauto]).
  destruct (lstatSync file) as [st|e] eqn:Hst.
  - destruct (negb preserve && isSymbolicLink st) eqn:Hfollow.
    + apply andb_true_iff in Hfollow as [Hp Hlink].
      apply negb_true_iff in Hp. subst preserve.
      destruct (realpathSync file) as [target|e] eqn:Hreal.
      * destruct (findFile_in_place_total target false) as (v & log & Hrun & Hlog).
        { intros st' Hst'. simpl. apply (Hsnapshot file target st' Hreal Hst'). }
        exists v, (Lstat file :: Realpath file :: log). split.
        -- intros fuel Hle. destruct (Hfuel fuel Hle) as [k ->].
           rewrite (findFile_follow _ file target st Hst Hlink Hreal).
           now rewrite Hrun.
        -- simpl. rewrite Hlog. simpl. lia.
      * exists Undefined, [Lstat file; Realpath file]. split; [|simpl; lia].
        intros fuel Hle. destruct (Hfuel fuel Hle) as [k ->].
        apply (findFile_realpath_error _ file st e Hst Hlink Hreal).
    + destruct (findFile_in_place_total file preserve) as (v & log & Hrun & Hlog).
      { intros st' Hst'. congruence. }
      exists v, log. split; [|rewrite Hlog; simpl; lia].
      intros fuel Hle. destruct (Hfuel fuel Hle) as [k ->]. apply Hrun.
  - destruct (findFile_in_place_total file preserve) as (v & log & Hrun & Hlog).
    { intros st' Hst'. congruence. }
    exists v, log. split; [|rewrite Hlog; simpl; lia].
    intros fuel Hle. destruct (Hfuel fuel Hle) as [k ->]. apply Hrun.
Qed.

(** C6, as the code has it. A candidate that is verified in place (a
    regular file, or a link with links preserved) and whose name its
    directory's listing does not hold character for character fails
    verification; when the two candidates with an extension fail as well,
    the resolution returns [undefined]. The name of a link that is followed
    is not checked: the check falls on its real path. *)
Theorem case_exactness_in_place (n : nat) (file : string) (preserve : bool) :
  unlistedInPlace preserve file →
  (∃ log, findFile (S n) file preserve = Some (Normal Undefined, log))
  ∧ (∀ l2 l3,
       findFile (S n) (file +:+ ".mjs") preserve = Some (Normal Undefined, l2) →
       findFile (S n) (file +:+ ".js") preserve = Some (Normal Undefined, l3) →
       ∃ log,
         addJsExtensionIfNecessary (S n) file preserve = Some (Normal Undefined, log))
  ∧ (∀ options importee importer l2 l3,
       processDefined = true →
       importer = Undefined ∨ isAbsolute importee = true ∨ charAt0 importee = Str "." →
       composedPath importee importer = file → preserveSymlinks options = preserve →
       findFile (S n) (file +:+ ".mjs") preserve = Some (Normal Undefined, l2) →
       findFile (S n) (file +:+ ".js") preserve = Some (Normal Undefined, l3) →
       ∃ log,
         createResolveId options (S n) importee importer = Some (Normal Undefined, log)).
Proof.
  intros (st & files & Hst & Hplace & Hdir & Hnotin).
  assert (Hfail : ∃ log, findFile (S n) file preserve = Some (Normal Undefined, log)).
  { destruct ((preserve && isSymbolicLink st) || isFile st) eqn:Hcheck.
    - eexists.
      rewrite (findFile_in_place n file preserve st files Hst Hplace Hcheck Hdir).
      now rewrite bool_decide_eq_false_2.
    - eexists. apply (findFile_other n file preserve st Hst Hplace Hcheck). }
  split; [exact Hfail |]. destruct Hfail as [l1 H1].
  assert (Hall : ∀ l2 l3,
            findFile (S n) (file +:+ ".mjs") preserve = Some (Normal Undefined, l2) →
            findFile (S n) (file +:+ ".js") preserve = Some (Normal Undefined, l3) →
            addJsExtensionIfNecessary (S n) file preserve
            = Some (Normal Undefined, l1 ++ l2 ++ l3))
    by (intros l2 l3 H2 H3;
        now apply (addJsExtensionIfNecessary_third _ _ _ Undefined Undefined Undefined
                     l1 l2 l3)).
  split.
  - intros l2 l3 H2 H3. eexists. exact (Hall l2 l3 H2 H3).
  - intros options importee importer l2 l3 Hp Hcase Hfile Hflag H2 H3. eexists.
    rewrite (createResolveId_composed options (S n) importee importer Hp Hcase).
    rewrite Hfile, Hflag. exact (Hall l2 l3 H2 H3).
Qed.

(** C3, as the code has it. Without [process] the resolver throws, and
    under Node it throws for no input. Under Node, for an absolute
    specifier or one that starts with a dot, when none of the three
    candidates verifies, the resolver returns [undefined] (not [null],
    which is what a bare specifier gets), having probed the three in
    order. *)
Theorem resolveId_no_candidate (options : InputOptions) (fuel : nat)
    (importee : string) (importer : value) :
  (processDefined = false →
   createResolveId options fuel importee importer
   = Some (Throw (RollupError "MISSING_PROCESS"), []))
  ∧ (processDefined = true →
     (∀ e log, createResolveId options fuel importee importer ≠ Some (Throw e, log))
     ∧ (isAbsolute importee = true ∨ charAt0 importee = Str "." →
        let file := composedPath importee importer in
        let preserve := preserveSymlinks options in
        ∀ l1 l2 l3,
          findFile fuel file preserve = Some (Normal Undefined, l1) →
          findFile fuel (file +:+ ".mjs") preserve = Some (Normal Undefined, l2) →
          findFile fuel (file +:+ ".js") preserve = Some (Normal Undefined, l3) →
          createResolveId options fuel importee importer
          = Some (Normal Undefined, l1 ++ l2 ++ l3))).
Proof.
  split; [apply createResolveId_no_process |].
  intros Hp. split; [intros e log; now apply createResolveId_no_throw |].
  intros Hcase file preserve l1 l2 l3 H1 H2 H3.
  rewrite createResolveId_composed by tauto.
  now apply (addJsExtensionIfNecessary_third _ _ _ Undefined Undefined).
Qed.
End Contract.

(** ** The contract on the example disks *)

Ltac computed := vm_compute; reflexivity.
Ltac decided := apply (bool_decide_unpack _); vm_compute; exact I.
Ltac listed_on_disk :=
  eexists regularFile, _;
  split; [computed | split; [computed | split; [computed | split; [computed | decided]]]].

Lemma projectDisk_listed_main : @listedFile projectDisk posixPath "/proj/src/main.js".
Proof. listed_on_disk. Qed.

Lemma projectDisk_listed_util : @listedFile projectDisk posixPath "/proj/src/util.js".
Proof. listed_on_disk. Qed.

Lemma projectDisk_listed_data : @listedFile projectDisk posixPath "/proj/src/data.mjs".
Proof. listed_on_disk. Qed.



Lemma assoc_Some {A : Type} (key : string) (rows : list (string * A)) (a : A) :
  assoc key rows = Some a → (key, a) ∈ rows.
Proof.
  induction rows as [|[k b] rows IH]; simpl; [discriminate |].
  destruct (String.eqb_spec k key) as [-> | _].
  - intros [= ->]. left.
  - intros Hrest. right. now apply IH.
Qed.

(** A real path a table disk answers with stands in a row of its links. *)
Lemma tableFs_realpath (fold : string → string) (stats : list (string * Stats))
    (links : list (string * completion string))
    (dirs : list (string * completion (list string))) (path target : string) :
  @realpathSync (tableFs fold stats links dirs) path = Normal target →
  (fold path, Normal target) ∈ links.
Proof.
  simpl. destruct (assoc (fold path) links) as [r|] eqn:Hrow; simpl; [|discriminate].
  intros ->. now apply assoc_Some.
Qed.

Lemma projectDisk_realpathsResolved : @realpathsResolved projectDisk.
Proof.
  intros path target st Hreal Hst. apply tableFs_realpath in Hreal.
  repeat (apply elem_of_cons in Hreal as [Hrow | Hreal]);
    [injection Hrow as _ -> .. | discriminate Hrow | inversion Hreal];
    vm_compute in Hst; injection Hst as <-; reflexivity.
Qed.

Lemma resolveId_bare_specifier_witness :
  resolveIdOn projectDisk followLinks 0 "lodash" (Str "/proj/src/main.js")
  = Some (Normal Null, []).
Proof.
  apply (@resolveId_bare_specifier projectDisk posixPath node followLinks 0 "lodash"
           (Str "/proj/src/main.js"));
    [reflexivity | discriminate | reflexivity | discriminate].
Defined.

Lemma extension_inference_first_success_witness :
  resolveIdOn projectDisk followLinks 1 "./main.js" (Str "/proj/src/main.js")
    = Some (Normal (Str "/proj/src/main.js"),
            [Lstat "/proj/src/main.js"; Readdir "/proj/src"])
  ∧ resolveIdOn projectDisk followLinks 1 "./data" (Str "/proj/src/main.js")
    = Some (Normal (Str "/proj/src/data.mjs"),
            [Lstat "/proj/src/data"; Lstat "/proj/src/data.mjs"; Readdir "/proj/src"])
  ∧ resolveIdOn projectDisk keepLinks 1 "./util" (Str "/proj/src/main.js")
    = Some (Normal (Str "/proj/src/util.js"),
            [Lstat "/proj/src/util"; Lstat "/proj/src/util.mjs";
             Lstat "/proj/src/util.js"; Readdir "/proj/src"]).
Proof.
  split; [|split].
  - destruct (@extension_inference_first_success projectDisk posixPath node followLinks 1
                "./main.js" (Str "/proj/src/main.js") (Str "/proj/src/main.js")
                [Lstat "/proj/src/main.js"; Readdir "/proj/src"]
                eq_refl (or_intror (or_intror eq_refl)) eq_refl)
      as (_ & _ & _ & _ & Hexact & _ & _).
    apply (Hexact 0 eq_refl); [discriminate | exact projectDisk_listed_main].
  - destruct (@extension_inference_first_success projectDisk posixPath node followLinks 1
                "./data" (Str "/proj/src/main.js") Undefined [Lstat "/proj/src/data"]
                eq_refl (or_intror (or_intror eq_refl)) eq_refl)
      as (_ & _ & _ & _ & _ & Hmjs & _).
    exact (Hmjs 0 eq_refl eq_refl projectDisk_listed_data).
  - destruct (@extension_inference_first_success projectDisk posixPath node keepLinks 1
                "./util" (Str "/proj/src/main.js") Undefined [Lstat "/proj/src/util"]
                eq_refl (or_intror (or_intror eq_refl)) eq_refl)
      as (_ & _ & _ & _ & _ & _ & Hjs).
    exact (Hjs 0 Undefined [Lstat "/proj/src/util.mjs"] eq_refl eq_refl eq_refl eq_refl
             projectDisk_listed_util).
Defined.


Lemma probe_errors_suppressed_witness :
  @findFile projectDisk posixPath 1 "/proj/src/missing.js" false
    = Some (Normal Undefined, [Lstat "/proj/src/missing.js"])
  ∧ @findFile projectDisk posixPath 1 "/proj/src/loop.js" false
    = Some (Normal Undefined, [Lstat "/proj/src/loop.js"; Realpath "/proj/src/loop.js"])
  ∧ (∃ log, @findFile projectDisk posixPath 1 "/proj/vault/key.js" false
            = Some (Normal Undefined, log))
  ∧ (∀ options fuel importee importer e log,
       resolveIdOn projectDisk options fuel importee importer ≠ Some (Throw e, log)).
Proof.
  split; [|split; [|split]].
  - refine (proj1 (@probe_errors_suppressed projectDisk posixPath node 0
      "/proj/src/missing.js" false (FsError "ENOENT")) _). computed.
  - refine (proj1 (proj2 (@probe_errors_suppressed projectDisk posixPath node 0
      "/proj/src/loop.js" false (FsError "ELOOP"))) symbolicLink _ _ _); computed.
  - refine (proj1 (proj2 (proj2 (@probe_errors_suppressed projectDisk posixPath node 0
      "/proj/vault/key.js" false (FsError "EACCES")))) regularFile _ _ _); computed.
  - exact (proj2 (proj2 (proj2 (proj2 (proj2 (proj2
      (@probe_errors_suppressed projectDisk posixPath node 0 "" false
         (FsError "ENOENT"))))))) eq_refl).
Defined.

Lemma findFile_terminates_on_snapshot_witness :
  (∃ v log,
     (∀ fuel, 2 ≤ fuel →
        @findFile projectDisk posixPath fuel "/proj/src/link.js" false
        = Some (Normal v, log))
     ∧ length (List.filter isRealpath log) ≤ 1)
  ∧ @findFile projectDisk posixPath 1 "/proj/src/loop.js" false
    = Some (Normal Undefined, [Lstat "/proj/src/loop.js"; Realpath "/proj/src/loop.js"]).
Proof.
  destruct (@findFile_terminates_on_snapshot projectDisk posixPath "/proj/src/link.js"
              false projectDisk_realpathsResolved) as [Hends _].
  destruct (@findFile_terminates_on_snapshot projectDisk posixPath "/proj/src/loop.js"
              false projectDisk_realpathsResolved) as [_ Hloop].
  split; [exact Hends |].
  apply (Hloop 0 symbolicLink (FsError "ELOOP")); computed.
Defined.

Lemma caseInsensitiveDisk_Foo_unlisted :
  @unlistedInPlace caseInsensitiveDisk posixPath false "/proj/src/Foo.js".
Proof.
  exists regularFile, ["main.js"; "foo.js"; "real.js"; "link.js"].
  split; [computed | split; [computed | split; [computed |]]].
  apply (bool_decide_unpack _). vm_compute. exact I.
Qed.

Lemma case_exactness_in_place_witness :
  (∃ log, @findFile caseInsensitiveDisk posixPath 1 "/proj/src/Foo.js" false
          = Some (Normal Undefined, log))
  ∧ (∃ log, @addJsExtensionIfNecessary caseInsensitiveDisk posixPath 1
              "/proj/src/Foo.js" false
            = Some (Normal Undefined, log))
  ∧ (∃ log, resolveIdOn caseInsensitiveDisk followLinks 1 "./Foo.js"
              (Str "/proj/src/main.js")
            = Some (Normal Undefined, log)).
Proof.
  destruct (@case_exactness_in_place caseInsensitiveDisk posixPath node 0
              "/proj/src/Foo.js" false caseInsensitiveDisk_Foo_unlisted)
    as (Hfile & Hall & Hresolver).
  split; [exact Hfile |]. split.
  - apply (Hall [Lstat "/proj/src/Foo.js.mjs"] [Lstat "/proj/src/Foo.js.js"]); computed.
  - apply (Hresolver followLinks "./Foo.js" (Str "/proj/src/main.js")
             [Lstat "/proj/src/Foo.js.mjs"] [Lstat "/proj/src/Foo.js.js"]);
      [reflexivity | right; right; reflexivity | reflexivity | reflexivity
      | computed | computed].
Defined.

(** On the case-insensitive disk, [Foo.js] is refused, for the listing holds
    [foo.js]. *)
Example resolveId_Foo_unresolved :
  resolveIdOn caseInsensitiveDisk followLinks 1 "./Foo.js" (Str "/proj/src/main.js")
  = Some (Normal Undefined,
          [Lstat "/proj/src/Foo.js"; Readdir "/proj/src";
           Lstat "/proj/src/Foo.js.mjs"; Lstat "/proj/src/Foo.js.js"]).
Proof. computed. Qed.

(** On the same disk, with links followed, [Link.js] is accepted although the
    listing holds [link.js]: the status of [Link.js] is a link, and the case
    check is made for its real path [real.js] only. *)
Lemma case_guard_skipped_for_followed_link :
  @readdirSync caseInsensitiveDisk (@dirname posixPath "/proj/src/Link.js")
    = Normal ["main.js"; "foo.js"; "real.js"; "link.js"]
  ∧ (@basename posixPath "/proj/src/Link.js" ∉ ["main.js"; "foo.js"; "real.js"; "link.js"])
  ∧ @findFile caseInsensitiveDisk posixPath 2 "/proj/src/Link.js" false
    = Some (Normal (Str "/proj/src/real.js"),
            [Lstat "/proj/src/Link.js"; Realpath "/proj/src/Link.js";
             Lstat "/proj/src/real.js"; Readdir "/proj/src"])
  ∧ resolveIdOn caseInsensitiveDisk followLinks 2 "./Link.js" (Str "/proj/src/main.js")
    = Some (Normal (Str "/proj/src/real.js"),
            [Lstat "/proj/src/Link.js"; Realpath "/proj/src/Link.js";
             Lstat "/proj/src/real.js"; Readdir "/proj/src"]).
Proof.
  split; [computed | split; [|split; computed]].
  apply (bool_decide_unpack _). vm_compute. exact I.
Qed.

(** No candidate for [./missing] verifies, and the resolver returns
    [undefined], which is not [null]. *)
Lemma resolveId_missing_is_undefined :
  @findFile projectDisk posixPath 1 "/proj/src/missing" false
    = Some (Normal Undefined, [Lstat "/proj/src/missing"])
  ∧ @findFile projectDisk posixPath 1 "/proj/src/missing.mjs" false
    = Some (Normal Undefined, [Lstat "/proj/src/missing.mjs"])
  ∧ @findFile projectDisk posixPath 1 "/proj/src/missing.js" false
    = Some (Normal Undefined, [Lstat "/proj/src/missing.js"])
  ∧ resolveIdOn projectDisk followLinks 1 "./missing" (Str "/proj/src/main.js")
    = Some (Normal Undefined,
            [Lstat "/proj/src/missing"; Lstat "/proj/src/missing.mjs";
             Lstat "/proj/src/missing.js"])
  ∧ Undefined ≠ Null.
Proof. repeat split; try computed. discriminate. Qed.

Lemma resolveId_no_candidate_witness :
  @createResolveId projectDisk posixPath noProcess followLinks 1 "./missing"
     (Str "/proj/src/main.js")
    = Some (Throw (RollupError "MISSING_PROCESS"), [])
  ∧ resolveIdOn projectDisk followLinks 1 "./missing" (Str "/proj/src/main.js")
    = Some (Normal Undefined,
            [Lstat "/proj/src/missing"; Lstat "/proj/src/missing.mjs";
             Lstat "/proj/src/missing.js"]).
Proof.
  split.
  - exact (proj1 (@resolveId_no_candidate projectDisk posixPath noProcess followLinks 1
                    "./missing" (Str "/proj/src/main.js")) eq_refl).
  - refine (proj2 (proj2 (@resolveId_no_candidate projectDisk posixPath node followLinks 1
                            "./missing" (Str "/proj/src/main.js")) eq_refl)
              (or_intror eq_refl)
              [Lstat "/proj/src/missing"] [Lstat "/proj/src/missing.mjs"]
              [Lstat "/proj/src/missing.js"] _ _ _); computed.
Defined.

(** ** Further properties of the resolver and the tables *)

Section Further.
Context {fs : FsModule} {paths : PathModule} {host : Host}.

(** Every path [findFile] returns has passed the check in place: its status
    is a regular file (or a link, with links preserved) and the listing of
    its directory holds its name character for character. *)
Lemma findFile_returns_verified (fuel : nat) (file : string) (preserve : bool)
    (p : string) (log : list Probe) :
  findFile fuel file preserve = Some (Normal (Str p), log) → verifiedPath preserve p.
Proof.
  revert file log. induction fuel as [|n IH]; intros file log Hrun; [discriminate |].
  destruct (lstatSync file) as [st|e] eqn:Hst;
    [|rewrite (findFile_lstat_error _ _ _ e Hst) in Hrun; discriminate].
  destruct (negb preserve && isSymbolicLink st) eqn:Hfollow.
  - apply andb_true_iff in Hfollow as [Hp Hlink].
    apply negb_true_iff in Hp. subst preserve.
    destruct (realpathSync file) as [target|e] eqn:Hreal;
      [|rewrite (findFile_realpath_error _ _ st e Hst Hlink Hreal) in Hrun; discriminate].
    rewrite (findFile_follow _ _ target st Hst Hlink Hreal) in Hrun.
    destruct (findFile n target false) as [[r log']|] eqn:Hrec; [|discriminate].
    simpl in Hrun. injection Hrun as -> _. now apply (IH target log').
  - destruct ((preserve && isSymbolicLink st) || isFile st) eqn:Hcheck;
      [|rewrite (findFile_other _ _ _ st Hst Hfollow Hcheck) in Hrun; discriminate].
    destruct (readdirSync (dirname file)) as [files|e] eqn:Hdir;
      [|rewrite (findFile_readdir_error _ _ _ st e Hst Hfollow Hcheck Hdir) in Hrun;
        discriminate].
    rewrite (findFile_in_place _ _ _ st files Hst Hfollow Hcheck Hdir) in Hrun.
    case_bool_decide as Hin; [|discriminate].
    injection Hrun as <- _. now exists st, files.
Qed.

(** X1. A path the resolver returns is a verified path: the result of
    [resolveId], when it is a string, is a path that passed the check in
    place under the option's flag (a regular file, or a link with links
    preserved, whose directory lists its name character for character). *)
Theorem resolveId_returns_verified (options : InputOptions) (fuel : nat)
    (importee : string) (importer : value) (p : string) (log : list Probe) :
  createResolveId options fuel importee importer = Some (Normal (Str p), log) →
  verifiedPath (preserveSymlinks options) p.
Proof.
  unfold createResolveId, bind. destruct processDefined; simpl; [|discriminate].
  destruct (_ && _); [discriminate |].
  rewrite after_nil. unfold addJsExtensionIfNecessary, bind.
  set (file := composedPath importee importer). set (preserve := preserveSymlinks options).
  destruct (findFile fuel file preserve) as [[[v1|e1] l1]|] eqn:H1; try discriminate.
  destruct (truthy v1) eqn:Hv1.
  { simpl. intros [= -> _]. now apply (findFile_returns_verified fuel file preserve p l1). }
  destruct (findFile fuel (file +:+ ".mjs") preserve) as [[[v2|e2] l2]|] eqn:H2;
    try discriminate.
  destruct (truthy v2) eqn:Hv2.
  { simpl. intros [= -> _].
    now apply (findFile_returns_verified fuel (file +:+ ".mjs") preserve p l2). }
  destruct (findFile fuel (file +:+ ".js") preserve) as [[[v3|e3] l3]|] eqn:H3;
    try discriminate.
  simpl. intros [= -> _].
  now apply (findFile_returns_verified fuel (file +:+ ".js") preserve p l3).
Qed.

(** X2. An entry point (no importer) is never skipped: under Node its
    specifier, bare or not, is composed with the working directory and goes
    through the extension inference. *)
Theorem entry_point_not_skipped (options : InputOptions) (fuel : nat) (importee : string) :
  processDefined = true →
  createResolveId options fuel importee Undefined
  = addJsExtensionIfNecessary fuel (resolve [resolve []; importee])
      (preserveSymlinks options).
Proof.
  intros Hp. now rewrite (createResolveId_composed options fuel importee Undefined Hp)
    by now left.
Qed.
End Further.

(** X3. For every chunk id, the import-meta table gives for the property
    ['url']: for [amd] the URL of [module.uri] against the document's base,
    for [system] [module.meta.url], for [iife] the document's script (or the
    chunk against the base URI), for [cjs] and for [umd] one conditional
    expression that builds a [file:] URL from [__filename] where there is no
    document and takes the document's expression otherwise. *)
Theorem importMetaUrlMechanisms_by_format (chunkId : string) :
  let fromDocument :=
    "(document.currentScript && document.currentScript.src || new URL('" +:+ chunkId
      +:+ "', document.baseURI).href)" in
  let branching :=
    "(typeof document === 'undefined' ? new (require('u' + 'rl').URL)('file:' + __filename).href : "
      +:+ fromDocument +:+ ")" in
  resolveImportMeta (Str "url") chunkId "amd"
    = Some (Normal (Str "new URL(module.uri, document.baseURI).href"))
  ∧ resolveImportMeta (Str "url") chunkId "system" = Some (Normal (Str "module.meta.url"))
  ∧ resolveImportMeta (Str "url") chunkId "iife" = Some (Normal (Str fromDocument))
  ∧ resolveImportMeta (Str "url") chunkId "cjs" = Some (Normal (Str branching))
  ∧ resolveImportMeta (Str "url") chunkId "umd" = Some (Normal (Str branching))
  ∧ getUrlFromDocument chunkId = fromDocument.
Proof.
  intros fromDocument branching. subst fromDocument branching.
  repeat split;
    lazymatch goal with
    | |- resolveImportMeta _ _ ?format = _ =>
        let entry := eval vm_compute in (importMetaUrlMechanisms !! format) in
        lazymatch entry with
        | Some ?f =>
            assert (Hentry : importMetaUrlMechanisms !! format = Some f)
              by (vm_compute; reflexivity);
            unfold resolveImportMeta;
            rewrite (proj2 (getProperty_Own _ _ _) Hentry); cbv zeta;
            rewrite (mechanism_nonempty chunkId format f Hentry);
            unfold strictEq;
            rewrite (bool_decide_eq_false_2 (Str "url" = Null)) by discriminate;
            rewrite (bool_decide_eq_true_2 (Str "url" = Str "url")) by reflexivity;
            do 2 f_equal; f_equal; same_template
        end
    | |- _ => same_template
    end.
Qed.

Lemma resolveId_returns_verified_witness :
  @verifiedPath projectDisk posixPath true "/proj/src/link.js".
Proof.
  apply (@resolveId_returns_verified projectDisk posixPath node keepLinks 1 "./link.js"
           (Str "/proj/src/main.js") "/proj/src/link.js"
           [Lstat "/proj/src/link.js"; Readdir "/proj/src"]).
  computed.
Defined.

Lemma entry_point_not_skipped_witness :
  resolveIdOn projectDisk followLinks 1 "src/main.js" Undefined
  = @addJsExtensionIfNecessary projectDisk posixPath 1 "/proj/src/main.js" false.
Proof.
  exact (@entry_point_not_skipped projectDisk posixPath node followLinks 1 "src/main.js"
           eq_refl).
Defined.

(** ** More on the mechanism tables *)

Lemma length_append (a b : string) :
  String.length (a +:+ b) = String.length a + String.length b.
Proof.
  induction a as [|ch a IH]; [reflexivity |].
  change (S (String.length (a +:+ b)) = S (String.length a + String.length b)).
  now rewrite IH.
Qed.

Lemma append_cancel_prefix (a x y : string) : a +:+ x = a +:+ y → x = y.
Proof.
  induction a as [|ch a IH]; [trivial |].
  change (String ch (a +:+ x) = String ch (a +:+ y) → x = y).
  intros [= Heq]. now apply IH.
Qed.

(** Two concatenations that agree and whose heads have one length have the
    same head. *)
Lemma append_same_length (a b x y : string) :
  String.length a = String.length b → a +:+ x = b +:+ y → a = b.
Proof.
  revert b. induction a as [|ch a IH]; intros [|ch' b] Hlen; try discriminate;
    [reflexivity |].
  change (String ch (a +:+ x) = String ch' (b +:+ y) → String ch a = String ch' b).
  intros [= -> Heq]. f_equal. apply IH; [|exact Heq].
  simpl in Hlen. lia.
Qed.

(** The expression of the asset table, per format: the path stands once or
    twice between fixed texts. *)
Lemma resolveAssetUrl_shape (format : string) :
  format ∈ outputFormats →
  ∃ (pre mid suf : string) (twice : bool),
    ∀ relativePath,
      resolveAssetUrl relativePath format
      = Some (Normal (Str (pre +:+ relativePath
                             +:+ (if twice then mid +:+ relativePath +:+ suf else suf)))).
Proof.
  intros Hin. unfold resolveAssetUrl.
  repeat (apply elem_of_cons in Hin as [-> | Hin]); [..| inversion Hin];
    lazymatch goal with
    | |- context [getProperty relativeUrlMechanisms ?format] =>
        let entry := eval vm_compute in (relativeUrlMechanisms !! format) in
        lazymatch entry with
        | Some ?f =>
            replace (getProperty relativeUrlMechanisms format) with (Own f)
              by (symmetry; apply getProperty_Own; vm_compute; reflexivity)
        end
    end.
  - exists "new URL(module.uri + '/../", "", "', document.baseURI).href", false.
    intros p. do 2 f_equal. f_equal. same_template.
  - exists "(typeof document === 'undefined' ? new (require('u' + 'rl').URL)('file:' + __dirname + '/",
      "').href : new URL((document.currentScript && document.currentScript.src || document.baseURI) + '/../",
      "').href)", true.
    intros p. do 2 f_equal. f_equal. same_template.
  - exists "new URL('", "", "', import.meta.url).href", false.
    intros p. do 2 f_equal. f_equal. same_template.
  - exists "new URL((document.currentScript && document.currentScript.src || document.baseURI) + '/../",
      "", "').href", false.
    intros p. do 2 f_equal. f_equal. same_template.
  - exists "new URL('", "", "', module.meta.url).href", false.
    intros p. do 2 f_equal. f_equal. same_template.
  - exists "(typeof document === 'undefined' ? new (require('u' + 'rl').URL)('file:' + __dirname + '/",
      "').href : new URL((document.currentScript && document.currentScript.src || document.baseURI) + '/../",
      "').href)", true.
    intros p. do 2 f_equal. f_equal. same_template.
Qed.

(** X5. For every format with an entry in the import-meta table, and every
    property and chunk id, [resolveImportMeta] returns a string, never
    [undefined] (no entry yields an empty text, so the test of the mechanism
    never fails): the object literal around the entry's expression for the
    property [null], the expression itself for ['url'], and the text
    ['undefined'] for any other property. *)
Theorem resolveImportMeta_by_property (format : string) (entry : string → string)
    (prop : value) (chunkId : string) :
  importMetaUrlMechanisms !! format = Some entry →
  resolveImportMeta prop chunkId format
  = Some (Normal (Str (if bool_decide (prop = Null)
                       then "({ url: " +:+ entry chunkId +:+ " })"
                       else if bool_decide (prop = Str "url") then entry chunkId
                       else "undefined"))).
Proof.
  intros Hentry. unfold resolveImportMeta.
  rewrite (proj2 (getProperty_Own _ _ _) Hentry). cbv zeta.
  rewrite (mechanism_nonempty chunkId format entry Hentry). unfold strictEq.
  now repeat case_bool_decide.
Qed.

Lemma resolveImportMeta_by_property_witness :
  resolveImportMeta Null "chunk-a.js" "system" = Some (Normal (Str "({ url: module.meta.url })"))
  ∧ resolveImportMeta (Str "url") "" "amd"
    = Some (Normal (Str "new URL(module.uri, document.baseURI).href"))
  ∧ resolveImportMeta (Str "") "chunk-a.js" "umd" = Some (Normal (Str "undefined")).
Proof.
  split; [|split].
  - exact (resolveImportMeta_by_property "system" (λ _, "module.meta.url") Null
             "chunk-a.js" eq_refl).
  - exact (resolveImportMeta_by_property "amd"
             (λ _, getResolveUrl "module.uri, document.baseURI" None) (Str "url") ""
             eq_refl).
  - pose proof (resolveImportMeta_by_property "umd" _ (Str "") "chunk-a.js" eq_refl)
      as Humd.
    exact Humd.
Defined.

(** X6. The import-meta table has an entry for exactly the formats of the
    asset table other than [es]. *)
Theorem mechanism_tables_domains (format : string) :
  is_Some (importMetaUrlMechanisms !! format)
  ↔ is_Some (relativeUrlMechanisms !! format) ∧ format ≠ "es".
Proof.
  rewrite importMetaUrlMechanisms_entries, relativeUrlMechanisms_entries.
  unfold outputFormats. rewrite !elem_of_cons, !elem_of_nil. split.
  - intros Hin. split; [tauto |]. intros ->.
    repeat destruct Hin as [Heq | Hin]; try discriminate; exact Hin.
  - intros [Hin Hes]. tauto.
Qed.

(** X7. For every format of the asset table, the expression
    [resolveAssetUrl] returns determines the path: two paths with one
    expression are one path. *)
Theorem resolveAssetUrl_injective (format path1 path2 : string) :
  format ∈ outputFormats →
  resolveAssetUrl path1 format = resolveAssetUrl path2 format → path1 = path2.
Proof.
  intros Hin Heq.
  destruct (resolveAssetUrl_shape format Hin) as (pre & mid & suf & twice & Hshape).
  rewrite !Hshape in Heq. injection Heq as Heq.
  assert (Hlen : String.length path1 = String.length path2).
  { apply (f_equal String.length) in Heq. destruct twice;
      rewrite ?length_append in Heq; lia. }
  apply append_cancel_prefix in Heq.
  exact (append_same_length _ _ _ _ Hlen Heq).
Qed.

Lemma resolveAssetUrl_injective_witness :
  "img.png" = "img.png"
  ∧ resolveAssetUrl "a.png" "cjs" ≠ resolveAssetUrl "b.png" "cjs"
  ∧ resolveAssetUrl "a.png" "es" ≠ resolveAssetUrl "a.PNG" "es".
Proof.
  assert (Hcjs : "cjs" ∈ outputFormats) by (apply (bool_decide_unpack _); vm_compute; exact I).
  assert (Hes : "es" ∈ outputFormats) by (apply (bool_decide_unpack _); vm_compute; exact I).
  split; [|split].
  - exact (resolveAssetUrl_injective "cjs" "img.png" "img.png" Hcjs eq_refl).
  - intros Heq. pose proof (resolveAssetUrl_injective "cjs" "a.png" "b.png" Hcjs Heq).
    discriminate.
  - intros Heq. pose proof (resolveAssetUrl_injective "es" "a.png" "a.PNG" Hes Heq).
    discriminate.
Defined.

(** ** More on file verification and the resolver *)

Section Coverage.
Context {fs : FsModule} {paths : PathModule} {host : Host}.

(** One call of [findFile] on a path whose status is not a link to follow:
    what it yields and what it probes. *)
Lemma findFile_in_place_shape (file : string) (preserve : bool) :
  (∀ st, lstatSync file = Normal st → negb preserve && isSymbolicLink st = false) →
  ∃ v log,
    (∀ n, findFile (S n) file preserve = Some (Normal v, log))
    ∧ (v = Str file ∨ v = Undefined)
    ∧ (log = [Lstat file] ∨ log = [Lstat file; Readdir (dirname file)]).
Proof.
  intros Hplace. destruct (lstatSync file) as [st|e] eqn:Hst.
  - specialize (Hplace st eq_refl).
    destruct ((preserve && isSymbolicLink st) || isFile st) eqn:Hcheck.
    + destruct (readdirSync (dirname file)) as [files|e] eqn:Hdir.
      * exists (if bool_decide (basename file ∈ files) then Str file else Undefined),
          [Lstat file; Readdir (dirname file)].
        split; [intros n | split; [case_bool_decide; auto | auto]].
        apply (findFile_in_place n file preserve st files Hst Hplace Hcheck Hdir).
      * exists Undefined, [Lstat file; Readdir (dirname file)].
        split; [intros n | auto].
        apply (findFile_readdir_error n file preserve st e Hst Hplace Hcheck Hdir).
    + exists Undefined, [Lstat file]. split; [intros n | auto].
      apply (findFile_other n file preserve st Hst Hplace Hcheck).
  - exists Undefined, [Lstat file]. split; [intros n | auto].
    apply (findFile_lstat_error n file preserve e Hst).
Qed.

(** [findFile] returns a string or [undefined]. *)
Lemma findFile_value (fuel : nat) (file : string) (preserve : bool) (v : value)
    (log : list Probe) :
  findFile fuel file preserve = Some (Normal v, log) → v = Undefined ∨ ∃ p, v = Str p.
Proof.
  revert file log. induction fuel as [|n IH]; intros file log Hrun; [discriminate |].
  destruct (lstatSync file) as [st|e] eqn:Hst.
  - destruct (negb preserve && isSymbolicLink st) eqn:Hfollow.
    + apply andb_true_iff in Hfollow as [Hp Hlink].
      apply negb_true_iff in Hp. subst preserve.
      destruct (realpathSync file) as [target|e] eqn:Hreal.
      * rewrite (findFile_follow _ _ target st Hst Hlink Hreal) in Hrun.
        destruct (findFile n target false) as [[r log']|] eqn:Hrec; [|discriminate].
        simpl in Hrun. injection Hrun as -> _. now apply (IH target log').
      * rewrite (findFile_realpath_error _ _ st e Hst Hlink Hreal) in Hrun.
        injection Hrun as <- _. now left.
    + destruct (findFile_in_place_shape file preserve) as (v' & log' & Hone & Hv & _).
      { intros st' Hst'. congruence. }
      rewrite Hone in Hrun. injection Hrun as <- _. destruct Hv as [-> | ->]; eauto.
  - rewrite (findFile_lstat_error _ _ _ e Hst) in Hrun. injection Hrun as <- _. now left.
Qed.

(** On a snapshot, what a verification yields from fuel two on, and how much
    it probes. *)
Lemma findFile_snapshot_bounded (file : string) (preserve : bool) :
  realpathsResolved →
  ∃ v log,
    (∀ fuel, 2 ≤ fuel → findFile fuel file preserve = Some (Normal v, log))
    ∧ length log ≤ 4.
Proof.
  intros Hsnapshot.
  assert (Hfuel : ∀ fuel, 2 ≤ fuel → ∃ k, fuel = S (S k))
    by (intros [|[|k]] Hle; [lia | lia | eauto]).
  assert (Hplace : ∀ f p,
            (∀ st, lstatSync f = Normal st → negb p && isSymbolicLink st = false) →
            ∃ v log, (∀ n, findFile (S n) f p = Some (Normal v, log)) ∧ length log ≤ 2).
  { intros f p Hf. destruct (findFile_in_place_shape f p Hf) as (v & log & Hone & _ & Hlog).
    exists v, log. split; [exact Hone |]. destruct Hlog as [-> | ->]; simpl; lia. }
  destruct (lstatSync file) as [st|e] eqn:Hst.
  - destruct (negb preserve && isSymbolicLink st) eqn:Hfollow.
    + apply andb_true_iff in Hfollow as [Hp Hlink].
      apply negb_true_iff in Hp. subst preserve.
      destruct (realpathSync file) as [target|e] eqn:Hreal.
      * destruct (Hplace target false) as (v & log & Hone & Hlen).
        { intros st' Hst'. simpl. apply (Hsnapshot file target st' Hreal Hst'). }
        exists v, (Lstat file :: Realpath file :: log). split; [|simpl; lia].
        intros fuel Hle. destruct (Hfuel fuel Hle) as [k ->].
        rewrite (findFile_follow _ file target st Hst Hlink Hreal). now rewrite Hone.
      * exists Undefined, [Lstat file; Realpath file]. split; [|simpl; lia].
        intros fuel Hle. destruct (Hfuel fuel Hle) as [k ->].
        apply (findFile_realpath_error _ file st e Hst Hlink Hreal).
    + destruct (Hplace file preserve) as (v & log & Hone & Hlen).
      { intros st' Hst'. congruence. }
      exists v, log. split; [|lia].
      intros fuel Hle. destruct (Hfuel fuel Hle) as [k ->]. apply Hone.
  - destruct (Hplace file preserve) as (v & log & Hone & Hlen).
    { intros st' Hst'. congruence. }
    exists v, log. split; [|lia].
    intros fuel Hle. destruct (Hfuel fuel Hle) as [k ->]. apply Hone.
Qed.

(** A path that is no link is verified alike under either flag. *)
Lemma findFile_flag_irrelevant (n : nat) (file : string) (p1 p2 : bool) :
  (∀ st, lstatSync file = Normal st → isSymbolicLink st = false) →
  findFile (S n) file p1 = findFile (S n) file p2.
Proof.
  intros Hnolink. simpl. unfold probe, bind.
  destruct (lstatSync file) as [st|e]; [|reflexivity]. simpl.
  rewrite (Hnolink st eq_refl), !andb_false_r. reflexivity.
Qed.

(** What the extension inference returns is what one of the three
    verifications returned. *)
Lemma addJsExtensionIfNecessary_from_candidate (fuel : nat) (file : string)
    (preserve : bool) (v : value) (log : list Probe) :
  addJsExtensionIfNecessary fuel file preserve = Some (Normal v, log) →
  ∃ candidate before log',
    candidate ∈ [file; file +:+ ".mjs"; file +:+ ".js"]
    ∧ findFile fuel candidate preserve = Some (Normal v, log')
    ∧ log = before ++ log'.
Proof.
  unfold addJsExtensionIfNecessary, bind.
  destruct (findFile fuel file preserve) as [[[v1|e1] l1]|] eqn:H1; try discriminate.
  destruct (truthy v1).
  { simpl. intros [= -> <-]. exists file, [], l1.
    split; [set_solver | split; [exact H1 | now rewrite app_nil_r]]. }
  destruct (findFile fuel (file +:+ ".mjs") preserve) as [[[v2|e2] l2]|] eqn:H2;
    try discriminate.
  destruct (truthy v2).
  { simpl. intros [= -> <-]. exists (file +:+ ".mjs"), l1, l2.
    split; [set_solver | split; [exact H2 | now rewrite app_nil_r]]. }
  destruct (findFile fuel (file +:+ ".js") preserve) as [[[v3|e3] l3]|] eqn:H3;
    try discriminate.
  simpl. intros [= -> <-]. exists (file +:+ ".js"), (l1 ++ l2), l3.
  split; [set_solver | split; [exact H3 | now rewrite app_nil_r, app_assoc]].
Qed.

(** What the extension inference yields, given what the three verifications
    yield. *)
Lemma addJsExtensionIfNecessary_results (fuel : nat) (file : string) (preserve : bool)
    (v1 v2 v3 : value) (l1 l2 l3 : list Probe) :
  findFile fuel file preserve = Some (Normal v1, l1) →
  findFile fuel (file +:+ ".mjs") preserve = Some (Normal v2, l2) →
  findFile fuel (file +:+ ".js") preserve = Some (Normal v3, l3) →
  addJsExtensionIfNecessary fuel file preserve
  = Some (if truthy v1 then (Normal v1, l1)
          else if truthy v2 then (Normal v2, l1 ++ l2)
          else (Normal v3, l1 ++ l2 ++ l3)).
Proof.
  intros H1 H2 H3. destruct (truthy v1) eqn:Hv1.
  - now apply addJsExtensionIfNecessary_first.
  - destruct (truthy v2) eqn:Hv2.
    + now apply (addJsExtensionIfNecessary_second _ _ _ v1).
    + now apply (addJsExtensionIfNecessary_third _ _ _ v1 v2).
Qed.

(** The resolver's result at every fuel that is [enough] for the three
    verifications: it probes at most what the three probe, one after the
    other. *)
Lemma createResolveId_assembled (options : InputOptions) (importee : string)
    (importer : value) (enough : nat → Prop) (v1 v2 v3 : value)
    (l1 l2 l3 : list Probe) :
  let file := composedPath importee importer in
  let preserve := preserveSymlinks options in
  (∀ fuel, enough fuel → findFile fuel file preserve = Some (Normal v1, l1)) →
  (∀ fuel, enough fuel → findFile fuel (file +:+ ".mjs") preserve = Some (Normal v2, l2)) →
  (∀ fuel, enough fuel → findFile fuel (file +:+ ".js") preserve = Some (Normal v3, l3)) →
  ∃ r log,
    (∀ fuel, enough fuel →
       createResolveId options fuel importee importer = Some (r, log))
    ∧ (log = [] ∨ log = l1 ∨ log = l1 ++ l2 ∨ log = l1 ++ l2 ++ l3).
Proof.
  intros file preserve H1 H2 H3. unfold createResolveId.
  destruct processDefined; simpl.
  - destruct (_ && _).
    + exists (Normal Null), []. split; [reflexivity | auto].
    + fold file preserve.
      exists (fst (if truthy v1 then (Normal v1, l1)
                   else if truthy v2 then (Normal v2, l1 ++ l2)
                   else (Normal v3, l1 ++ l2 ++ l3))),
             (snd (if truthy v1 then (Normal v1, l1)
                   else if truthy v2 then (Normal v2, l1 ++ l2)
                   else (Normal v3, l1 ++ l2 ++ l3))).
      split.
      * intros fuel Hfuel. rewrite after_nil.
        rewrite (addJsExtensionIfNecessary_results fuel file preserve v1 v2 v3 l1 l2 l3)
          by auto.
        now destruct (truthy v1), (truthy v2).
      * destruct (truthy v1), (truthy v2); simpl; auto.
  - exists (Throw (RollupError "MISSING_PROCESS")), []. split; [reflexivity | auto].
Qed.

(** Where a path [findFile] returns comes from: it is the file asked for, or
    it is a real path that was read on the way. *)
Lemma findFile_provenance (fuel : nat) (file : string) (preserve : bool) (p : string)
    (log : list Probe) :
  findFile fuel file preserve = Some (Normal (Str p), log) →
  p = file
  ∨ (preserve = false ∧ ∃ link, realpathSync link = Normal p ∧ Realpath link ∈ log).
Proof.
  revert file log. induction fuel as [|n IH]; intros file log Hrun; [discriminate |].
  destruct (lstatSync file) as [st|e] eqn:Hst.
  - destruct (negb preserve && isSymbolicLink st) eqn:Hfollow.
    + apply andb_true_iff in Hfollow as [Hp Hlink].
      apply negb_true_iff in Hp. subst preserve.
      destruct (realpathSync file) as [target|e] eqn:Hreal;
        [|rewrite (findFile_realpath_error _ _ st e Hst Hlink Hreal) in Hrun;
          discriminate].
      rewrite (findFile_follow _ _ target st Hst Hlink Hreal) in Hrun.
      destruct (findFile n target false) as [[r log']|] eqn:Hrec; [|discriminate].
      simpl in Hrun. injection Hrun as -> <-. right. split; [reflexivity |].
      destruct (IH target log' Hrec) as [-> | (_ & link & Hlink' & Hin)].
      * exists file. split; [exact Hreal | set_solver].
      * exists link. split; [exact Hlink' | set_solver].
    + destruct (findFile_in_place_shape file preserve) as (v' & log' & Hone & Hv & _).
      { intros st' Hst'. congruence. }
      rewrite Hone in Hrun. injection Hrun as -> _.
      destruct Hv as [[= ->] | ?]; [now left | discriminate].
  - rewrite (findFile_lstat_error _ _ _ e Hst) in Hrun. discriminate.
Qed.

(** X8. With links preserved the resolver needs no recursion and no
    assumption on the disk: for every input it ends at any fuel from one on
    with one and the same result, having made at most six probes, none of
    them a real-path read. *)
Theorem resolveId_preserved_total (options : InputOptions) (importee : string)
    (importer : value) :
  preserveSymlinks options = true →
  ∃ r log,
    (∀ n, createResolveId options (S n) importee importer = Some (r, log))
    ∧ length log ≤ 6
    ∧ List.filter isRealpath log = [].
Proof.
  intros Hflag.
  assert (Hone : ∀ c, ∃ v log,
            (∀ fuel, 1 ≤ fuel → findFile fuel c (preserveSymlinks options)
                                = Some (Normal v, log))
            ∧ length log ≤ 2 ∧ List.filter isRealpath log = []).
  { intros c. rewrite Hflag.
    destruct (findFile_in_place_shape c true) as (v & log & Hrun & _ & Hlog);
      [reflexivity |].
    exists v, log. split; [|destruct Hlog as [-> | ->]; split; simpl; (lia || reflexivity)].
    intros [|n] Hle; [lia | apply Hrun]. }
  destruct (Hone (composedPath importee importer)) as (v1 & l1 & H1 & Hlen1 & Hr1).
  destruct (Hone (composedPath importee importer +:+ ".mjs"))
    as (v2 & l2 & H2 & Hlen2 & Hr2).
  destruct (Hone (composedPath importee importer +:+ ".js"))
    as (v3 & l3 & H3 & Hlen3 & Hr3).
  destruct (createResolveId_assembled options importee importer (λ fuel, 1 ≤ fuel)
              v1 v2 v3 l1 l2 l3 H1 H2 H3) as (r & log & Hrun & Hlog).
  exists r, log. split; [intros n; apply Hrun; lia |].
  destruct Hlog as [-> | [-> | [-> | ->]]];
    rewrite ?List.filter_app, ?length_app, ?Hr1, ?Hr2, ?Hr3; simpl; split; (lia || reflexivity).
Qed.

(** X9. The resolver invents no path: a path it returns is one of its three
    candidates (the composed path, with [.mjs], with [.js]) or, with links
    followed, a real path that [realpathSync] answered during this very
    resolution. *)
Theorem resolveId_result_provenance (options : InputOptions) (fuel : nat)
    (importee : string) (importer : value) (p : string) (log : list Probe) :
  createResolveId options fuel importee importer = Some (Normal (Str p), log) →
  let file := composedPath importee importer in
  p ∈ [file; file +:+ ".mjs"; file +:+ ".js"]
  ∨ (preserveSymlinks options = false
     ∧ ∃ link, realpathSync link = Normal p ∧ Realpath link ∈ log).
Proof.
  unfold createResolveId, bind. destruct processDefined; simpl; [|discriminate].
  destruct (_ && _); [discriminate |]. rewrite after_nil. cbv zeta. intros Hrun.
  apply addJsExtensionIfNecessary_from_candidate in Hrun
    as (candidate & before & log' & Hin & Hfound & ->).
  destruct (findFile_provenance _ _ _ _ _ Hfound) as [-> | (Hflag & link & Hreal & Hprobe)].
  - now left.
  - right. split; [exact Hflag |]. exists link.
    split; [exact Hreal | apply elem_of_app; now right].
Qed.

(** X10. On a snapshot of the disk the resolver ends for every input: from
    fuel two on it yields one and the same result (a value, or the error of
    a host without [process]), having made at most twelve probes. *)
Theorem resolveId_total_on_snapshot (options : InputOptions) (importee : string)
    (importer : value) :
  realpathsResolved →
  ∃ r log,
    (∀ fuel, 2 ≤ fuel → createResolveId options fuel importee importer = Some (r, log))
    ∧ length log ≤ 12.
Proof.
  intros Hsnapshot.
  pose proof (λ c, findFile_snapshot_bounded c (preserveSymlinks options) Hsnapshot)
    as Hone.
  destruct (Hone (composedPath importee importer)) as (v1 & l1 & H1 & Hlen1).
  destruct (Hone (composedPath importee importer +:+ ".mjs")) as (v2 & l2 & H2 & Hlen2).
  destruct (Hone (composedPath importee importer +:+ ".js")) as (v3 & l3 & H3 & Hlen3).
  destruct (createResolveId_assembled options importee importer (λ fuel, 2 ≤ fuel)
              v1 v2 v3 l1 l2 l3 H1 H2 H3) as (r & log & Hrun & Hlog).
  exists r, log. split; [exact Hrun |].
  destruct Hlog as [-> | [-> | [-> | ->]]]; rewrite ?length_app; simpl; lia.
Qed.

(** X11. [null] is the mark of a skipped specifier and of nothing else: when
    the resolver returns [null], the importer is defined, the specifier is
    not absolute and does not start with a dot, and no probe was made. A
    failed lookup never yields [null]. *)
Theorem resolveId_null_only_when_skipped (options : InputOptions) (fuel : nat)
    (importee : string) (importer : value) (log : list Probe) :
  createResolveId options fuel importee importer = Some (Normal Null, log) →
  importer ≠ Undefined ∧ isAbsolute importee = false
  ∧ charAt0 importee ≠ Str "." ∧ log = [].
Proof.
  unfold createResolveId, bind, strictEq. destruct processDefined; simpl; [|discriminate].
  destruct (negb (bool_decide (importer = Undefined)) && negb (isAbsolute importee)
            && negb (bool_decide (charAt0 importee = Str "."))) eqn:Hskip.
  - intros [= <-].
    apply andb_true_iff in Hskip as [Hskip Hdot].
    apply andb_true_iff in Hskip as [Himp Habs].
    apply negb_true_iff in Himp, Habs, Hdot.
    apply bool_decide_eq_false in Himp, Hdot. auto.
  - rewrite after_nil. intros Hrun.
    apply addJsExtensionIfNecessary_from_candidate in Hrun
      as (candidate & before & log' & _ & Hfound & _).
    destruct (findFile_value _ _ _ _ _ Hfound) as [? | [p ?]]; discriminate.
Qed.

(** X12. The option [preserveSymlinks] matters for links only: when none of
    the three candidates is a symbolic link, the resolver yields the same
    result and makes the same probes under either setting. *)
Theorem preserveSymlinks_irrelevant_without_links (options options' : InputOptions)
    (n : nat) (importee : string) (importer : value) :
  let file := composedPath importee importer in
  (∀ candidate st,
     candidate ∈ [file; file +:+ ".mjs"; file +:+ ".js"] →
     lstatSync candidate = Normal st → isSymbolicLink st = false) →
  createResolveId options (S n) importee importer
  = createResolveId options' (S n) importee importer.
Proof.
  intros file Hnolink. unfold createResolveId, addJsExtensionIfNecessary. fold file.
  assert (Heq : ∀ c, c ∈ [file; file +:+ ".mjs"; file +:+ ".js"] →
            findFile (S n) c (preserveSymlinks options)
            = findFile (S n) c (preserveSymlinks options')).
  { intros c Hc. apply findFile_flag_irrelevant. intros st. now apply Hnolink. }
  rewrite (Heq file), (Heq (file +:+ ".mjs")), (Heq (file +:+ ".js")) by set_solver.
  reflexivity.
Qed.

(** X13. The importer enters a resolution through its directory only: two
    non-empty importers with one directory give one result, probes
    included. *)
Theorem resolveId_importer_directory (options : InputOptions) (fuel : nat)
    (importee importer1 importer2 : string) :
  importer1 ≠ "" → importer2 ≠ "" → dirname importer1 = dirname importer2 →
  createResolveId options fuel importee (Str importer1)
  = createResolveId options fuel importee (Str importer2).
Proof.
  intros Hne1 Hne2 Hdir. unfold createResolveId, composedPath, strictEq.
  rewrite (nonempty_truthy importer1 Hne1), (nonempty_truthy importer2 Hne2), Hdir.
  rewrite !(bool_decide_eq_false_2 (Str _ = Undefined)) by discriminate.
  reflexivity.
Qed.

(** X14. An empty importer is a defined importer for the skip and no importer
    for the path: under Node, with the importer [''], a bare specifier is
    skipped with [null], while a specifier that is absolute or starts with a
    dot is composed with the working directory, as for an entry point. *)
Theorem resolveId_empty_importer (options : InputOptions) (fuel : nat)
    (importee : string) :
  processDefined = true →
  (isAbsolute importee = false → charAt0 importee ≠ Str "." →
   createResolveId options fuel importee (Str "") = Some (Normal Null, []))
  ∧ (isAbsolute importee = true ∨ charAt0 importee = Str "." →
     createResolveId options fuel importee (Str "")
     = addJsExtensionIfNecessary fuel (resolve [resolve []; importee])
         (preserveSymlinks options)
     ∧ createResolveId options fuel importee (Str "")
       = createResolveId options fuel importee Undefined).
Proof.
  intros Hp. split.
  - intros Habs Hdot. unfold createResolveId, strictEq. rewrite Hp, Habs. simpl.
    now rewrite (bool_decide_eq_false_2 _ Hdot).
  - intros Hcase.
    rewrite !(createResolveId_composed options fuel importee _ Hp) by tauto.
    split; reflexivity.
Qed.

(** X15. A resolved path resolves to itself: when the resolver returned the
    path [p], and [p] is absolute (so that [resolve] with any base gives [p]
    back), resolving [p] from any importer returns [p] again, by the status
    lookup and the listing of its directory alone. *)
Theorem resolveId_idempotent (options : InputOptions) (fuel n : nat)
    (importee : string) (importer importer' : value) (p : string) (log : list Probe) :
  createResolveId options fuel importee importer = Some (Normal (Str p), log) →
  isAbsolute p = true → (∀ base, resolve [base; p] = p) → p ≠ "" →
  createResolveId options (S n) p importer'
  = Some (Normal (Str p), [Lstat p; Readdir (dirname p)]).
Proof.
  intros Hrun Habs Hresolve Hne.
  assert (Hp : processDefined = true).
  { unfold createResolveId in Hrun. destruct processDefined; [reflexivity | discriminate]. }
  assert (Hverified : verifiedPath (preserveSymlinks options) p).
  { unfold createResolveId, bind in Hrun. rewrite Hp in Hrun. simpl in Hrun.
    destruct (_ && _); [discriminate |]. rewrite after_nil in Hrun.
    apply addJsExtensionIfNecessary_from_candidate in Hrun
      as (candidate & before & log' & _ & Hfound & _).
    exact (findFile_returns_verified _ _ _ _ _ Hfound). }
  destruct Hverified as (st & files & Hst & Hplace & Hcheck & Hdir & Hin).
  rewrite (createResolveId_composed options (S n) p importer' Hp) by tauto.
  unfold composedPath. rewrite Hresolve.
  apply addJsExtensionIfNecessary_first; [|now apply nonempty_truthy].
  rewrite (findFile_in_place n p _ st files Hst Hplace Hcheck Hdir).
  now rewrite bool_decide_eq_true_2.
Qed.
End Coverage.

(** X16. The dynamic-import hook yields nothing of its own: for a specifier
    that is no string literal, and for a literal the context marks external,
    it returns [undefined] without a call of the resolver (no probe is
    made); a value other than [undefined], and likewise an error, comes from
    the context's resolver, called on the literal and the parent as given,
    for a literal that is not external. *)
Theorem resolveDynamicImport_defers (context : PluginContext)
    (specifier : DynamicSpecifier) (parentId : value) :
  (∀ type, specifier = Node type →
     resolveDynamicImport specifier parentId = Some (Normal Undefined, []))
  ∧ (∀ s, specifier = Literal s → isExternal s parentId false = true →
     resolveDynamicImport specifier parentId = Some (Normal Undefined, []))
  ∧ (∀ r log, resolveDynamicImport specifier parentId = Some (r, log) →
     r ≠ Normal Undefined →
     ∃ s, specifier = Literal s ∧ isExternal s parentId false = false
          ∧ thisResolveId s parentId = Some (r, log)).
Proof.
  split; [|split].
  - intros type ->. reflexivity.
  - intros s -> Hext. unfold resolveDynamicImport. now rewrite Hext.
  - intros r log Hrun Hr. destruct specifier as [s | type]; simpl in Hrun.
    + destruct (isExternal s parentId false) eqn:Hext; simpl in Hrun.
      * injection Hrun as <- _. now destruct Hr.
      * eauto.
    + injection Hrun as <- _. now destruct Hr.
Qed.

(** ** The further properties on the example disks *)

Lemma resolveId_preserved_total_witness :
  ∃ r log,
    (∀ n, @createResolveId oneHopDisk posixPath node keepLinks (S n) "/a" Undefined
          = Some (r, log))
    ∧ length log ≤ 6
    ∧ List.filter isRealpath log = [].
Proof.
  exact (@resolveId_preserved_total oneHopDisk posixPath node keepLinks "/a" Undefined
           eq_refl).
Defined.

Lemma resolveId_result_provenance_witness :
  "/proj/lib/real.js"
    ∈ ["/proj/src/link.js"; "/proj/src/link.js.mjs"; "/proj/src/link.js.js"]
  ∨ (preserveSymlinks followLinks = false
     ∧ ∃ link, @realpathSync projectDisk link = Normal "/proj/lib/real.js"
               ∧ Realpath link ∈ [Lstat "/proj/src/link.js"; Realpath "/proj/src/link.js";
                                  Lstat "/proj/lib/real.js"; Readdir "/proj/lib"]).
Proof.
  apply (@resolveId_result_provenance projectDisk posixPath node followLinks 2
           "./link.js" (Str "/proj/src/main.js") "/proj/lib/real.js").
  computed.
Defined.

Lemma resolveId_total_on_snapshot_witness :
  ∃ r log,
    (∀ fuel, 2 ≤ fuel →
       resolveIdOn projectDisk followLinks fuel "./chain.js" (Str "/proj/src/main.js")
       = Some (r, log))
    ∧ length log ≤ 12.
Proof.
  exact (@resolveId_total_on_snapshot projectDisk posixPath node followLinks
           "./chain.js" (Str "/proj/src/main.js") projectDisk_realpathsResolved).
Defined.

Lemma resolveId_null_only_when_skipped_witness :
  Str "/proj/src/main.js" ≠ Undefined ∧ @isAbsolute posixPath "lodash" = false
  ∧ charAt0 "lodash" ≠ Str "." ∧ @nil Probe = [].
Proof.
  apply (@resolveId_null_only_when_skipped projectDisk posixPath node followLinks 1
           "lodash" (Str "/proj/src/main.js") []).
  computed.
Defined.

Lemma preserveSymlinks_irrelevant_without_links_witness :
  resolveIdOn projectDisk followLinks 1 "./util" (Str "/proj/src/main.js")
  = resolveIdOn projectDisk keepLinks 1 "./util" (Str "/proj/src/main.js").
Proof.
  apply (@preserveSymlinks_irrelevant_without_links projectDisk posixPath node
           followLinks keepLinks 0 "./util" (Str "/proj/src/main.js")).
  intros candidate st Hin Hst.
  repeat (apply elem_of_cons in Hin as [-> | Hin]); [..| inversion Hin];
    vm_compute in Hst; first [discriminate Hst | injection Hst as <-; reflexivity].
Defined.

Lemma resolveId_importer_directory_witness :
  resolveIdOn projectDisk followLinks 1 "./util" (Str "/proj/src/main.js")
  = resolveIdOn projectDisk followLinks 1 "./util" (Str "/proj/src/data.mjs").
Proof.
  apply (@resolveId_importer_directory projectDisk posixPath node followLinks 1 "./util"
           "/proj/src/main.js" "/proj/src/data.mjs");
    [discriminate | discriminate | computed].
Defined.

Lemma resolveId_empty_importer_witness :
  resolveIdOn projectDisk followLinks 1 "lodash" (Str "") = Some (Normal Null, [])
  ∧ resolveIdOn projectDisk followLinks 1 "./src/main.js" (Str "")
    = resolveIdOn projectDisk followLinks 1 "./src/main.js" Undefined.
Proof.
  split.
  - apply (proj1 (@resolveId_empty_importer projectDisk posixPath node followLinks 1
                    "lodash" eq_refl)); [reflexivity | discriminate].
  - apply (proj2 (@resolveId_empty_importer projectDisk posixPath node followLinks 1
                    "./src/main.js" eq_refl)).
    right. reflexivity.
Defined.

Lemma resolveId_idempotent_witness :
  resolveIdOn projectDisk followLinks 1 "/proj/lib/real.js" Undefined
  = Some (Normal (Str "/proj/lib/real.js"), [Lstat "/proj/lib/real.js"; Readdir "/proj/lib"]).
Proof.
  apply (@resolveId_idempotent projectDisk posixPath node followLinks 2 0 "./link.js"
           (Str "/proj/src/main.js") Undefined "/proj/lib/real.js"
           [Lstat "/proj/src/link.js"; Realpath "/proj/src/link.js";
            Lstat "/proj/lib/real.js"; Readdir "/proj/lib"]);
    [computed | reflexivity | intros base; reflexivity | discriminate].
Defined.

Lemma resolveDynamicImport_defers_witness :
  @resolveDynamicImport (soleResolver projectDisk followLinks 1 ["fs"]) (Node "Identifier")
    (Str "/proj/src/main.js")
    = Some (Normal Undefined, [])
  ∧ @resolveDynamicImport (soleResolver projectDisk followLinks 1 ["fs"]) (Literal "fs")
      (Str "/proj/src/main.js")
    = Some (Normal Undefined, [])
  ∧ ∃ s, Literal "./util" = Literal s
         ∧ @isExternal (soleResolver projectDisk followLinks 1 ["fs"]) s
             (Str "/proj/src/main.js") false = false
         ∧ resolveIdOn projectDisk followLinks 1 s (Str "/proj/src/main.js")
           = Some (Normal (Str "/proj/src/util.js"),
                   [Lstat "/proj/src/util"; Lstat "/proj/src/util.mjs";
                    Lstat "/proj/src/util.js"; Readdir "/proj/src"]).
Proof.
  split; [|split].
  - exact (proj1 (resolveDynamicImport_defers (soleResolver projectDisk followLinks 1 ["fs"])
                    (Node "Identifier") (Str "/proj/src/main.js")) "Identifier" eq_refl).
  - exact (proj1 (proj2 (resolveDynamicImport_defers
                           (soleResolver projectDisk followLinks 1 ["fs"])
                           (Literal "fs") (Str "/proj/src/main.js"))) "fs" eq_refl eq_refl).
  - apply (proj2 (proj2 (resolveDynamicImport_defers
                           (soleResolver projectDisk followLinks 1 ["fs"])
                           (Literal "./util") (Str "/proj/src/main.js"))));
      [computed | discriminate].
Defined.
